(** * cmiyc.preprocessing: a shallow embedding and its specification

    The development follows [src/cmiyc/preprocessing.py].  The functions of
    the module ([preprocess_image], [pad_image_square_center],
    [batch_preprocess]) keep their names.  The library calls they make
    (Pillow, NumPy, SciPy, os) are modelled by the definitions prefixed
    [Image_], [np_], [stats_], [os_] and [plt_]; each one states which
    library behaviour it stands for.

    Numbers: Python integers are [Z]; NumPy float64 values are Rocq's
    primitive binary64 [float]s, so [0.90 * mode] and [x / 255] are computed
    with the very IEEE operations the interpreter uses. *)

From Stdlib Require Import ZArith Floats Ascii String Sorted.
From stdpp Require Import gmap strings list fin_maps pretty.

Set Warnings "-inexact-float,-clear-no-such-hyp".
Local Open Scope Z_scope.

(** ** Exceptions and results *)

Inductive exn :=
  | IndexError | ValueError | OverflowError | MemoryError
  | FileNotFoundError | FileExistsError | IsADirectoryError
  | NotADirectoryError | UnidentifiedImageError.

Inductive result (A : Type) :=
  | Ok (a : A)
  | Raise (e : exn).
Arguments Ok {A} a.
Arguments Raise {A} e.

#[export] Instance result_ret : MRet result := λ A a, Ok a.
#[export] Instance result_bind : MBind result := λ A B k r,
  match r with
  | Ok a => k a
  | Raise e => Raise e
  end.

(** ** Floating point: [float(z)], [int(f)] and C's [(int) f] *)

(** The float64 nearest to the integer [z] (exact when |z| < 2^53). *)
Definition float_of_int (z : Z) : float :=
  SF2Prim (binary_normalize prec emax z 0 false).

(** Integer part of a finite float, rounding towards zero. *)
Definition truncate (s : bool) (m : positive) (e : Z) : Z :=
  let v := if 0 <=? e then Z.shiftl (Z.pos m) e else Z.shiftr (Z.pos m) (- e) in
  if s then - v else v.

(** Python's [int(f)]: truncation; [nan] and the infinities raise. *)
Definition int (f : float) : result Z :=
  match Prim2SF f with
  | S754_zero _ => Ok 0
  | S754_finite s m e => Ok (truncate s m e)
  | S754_infinity _ => Raise OverflowError
  | S754_nan => Raise ValueError
  end.

(** C's [(int) f] inside Pillow's resampler, only used on finite values. *)
Definition c_int (f : float) : Z :=
  match int f with
  | Ok z => z
  | Raise _ => 0
  end.

(** ** [scipy.stats.mode] on a flat sequence of integers

    [mode] walks over [np.unique(a)] (the sorted distinct values) keeping the
    best score so far and replacing it only by a strictly larger count, so
    ties go to the smallest value.  It returns a pair of one-element arrays,
    or two empty arrays for an empty input. *)

Fixpoint insert_unique (v : Z) (l : list Z) : list Z :=
  match l with
  | [] => [v]
  | x :: l' =>
      if v <? x then v :: l
      else if v =? x then l
      else x :: insert_unique v l'
  end.

Definition np_unique (a : list Z) : list Z := foldr insert_unique [] a.

(** [np.sum(a == score)] *)
Definition count_score (a : list Z) (score : Z) : Z :=
  Z.of_nat (count_occ Z.eq_dec a score).

Definition mode_step (a : list Z) (st : Z * Z) (score : Z) : Z * Z :=
  let '(oldmostfreq, oldcounts) := st in
  let counts := count_score a score in
  (if oldcounts <? counts then score else oldmostfreq, Z.max counts oldcounts).

Definition stats_mode (a : list Z) : list Z * list Z :=
  match a with
  | [] => ([], [])
  | _ => let '(m, c) := foldl (mode_step a) (0, 0) (np_unique a) in ([m], [c])
  end.

(** [mode(a)[0][0]] *)
Definition stats_mode_00 (a : list Z) : result Z :=
  match (stats_mode a).1 !! 0%nat with
  | Some m => Ok m
  | None => Raise IndexError
  end.

(** ** Images

    A Pillow image has a size [(width, height)] and its pixels, kept here
    row by row.  The pixel type depends on the image mode; what the module
    needs from a mode is its white colour and its conversion to luminance. *)

Class Pixel (A : Type) := {
  mode_name : string;
  white : A;
  to_L : A → Z;
  valid_px : A → bool;
  to_L_range : ∀ p, valid_px p = true → 0 ≤ to_L p ≤ 255;
  white_valid : valid_px white = true
}.

Definition byteb (v : Z) : bool := (0 <=? v) && (v <=? 255).

(** Mode "L": one 8-bit band. *)
#[export, refine] Instance Pixel_L : Pixel Z := {|
  mode_name := "L"; white := 255; to_L := λ v, v; valid_px := byteb |}.
Proof.
  - unfold byteb. lia.
  - reflexivity.
Defined.

(** Mode "RGB", converted with Pillow's fixed-point ITU-R 601-2 luma. *)
Definition luma (p : Z * Z * Z) : Z :=
  let '(r, g, b) := p in
  Z.shiftr (r * 19595 + g * 38470 + b * 7471 + 32768) 16.

Definition rgb_valid (p : Z * Z * Z) : bool :=
  let '(r, g, b) := p in byteb r && byteb g && byteb b.

#[export, refine] Instance Pixel_RGB : Pixel (Z * Z * Z) := {|
  mode_name := "RGB"; white := (255, 255, 255); to_L := luma;
  valid_px := rgb_valid |}.
Proof.
  - intros [[r g] b]. unfold rgb_valid, luma, byteb.
    rewrite Z.shiftr_div_pow2 by lia. intros Hv. split.
    + apply Z.div_pos; lia.
    + apply Z.lt_succ_r, Z.div_lt_upper_bound; lia.
  - reflexivity.
Defined.

Record Image (A : Type) := mkImage {
  size : Z * Z;
  rows : list (list A)
}.
Arguments mkImage {A} size rows.
Arguments size {A} i.
Arguments rows {A} i.

(** The images a decoder produces: at least one pixel, as many rows as the
    height, as many pixels per row as the width, channel values in range. *)
Definition well_formed {A} `{Pixel A} (im : Image A) : bool :=
  (0 <? (size im).1) && (0 <? (size im).2)
  && (Z.of_nat (length (rows im)) =? (size im).2)
  && forallb (λ r, (Z.of_nat (length r) =? (size im).1) && forallb valid_px r)
             (rows im).

(** [image.getdata()]: the pixels in row-major order. *)
Definition Image_getdata {A} (im : Image A) : list A := concat (rows im).

Definition getpixel {A} (im : Image A) (x y : Z) : option A :=
  if (0 <=? x) && (0 <=? y)
  then rows im !! Z.to_nat y ≫= λ r, r !! Z.to_nat x
  else None.

(** [image.convert('L')] *)
Definition Image_convert_L {A} `{Pixel A} (im : Image A) : Image Z :=
  mkImage (size im) (map (map to_L) (rows im)).

(** [image.point(lut)] on an "L" image: the table must have 256 entries. *)
Definition Image_point (im : Image Z) (lut : list Z) : result (Image Z) :=
  if Z.of_nat (length lut) =? 256
  then Ok (mkImage (size im)
             (map (map (λ v, default 0 (lut !! Z.to_nat v))) (rows im)))
  else Raise ValueError.

(** [Image.new(mode, size, color)] *)
Definition Image_new {A} (sz : Z * Z) (color : A) : Image A :=
  mkImage sz (replicate (Z.to_nat sz.2) (replicate (Z.to_nat sz.1) color)).

(** [dst.paste(src, position)]: the pixels of [dst] under the box of [src]
    placed at [position] are replaced, the others are kept. *)
Definition Image_paste {A} (dst src : Image A) (position : Z * Z) : Image A :=
  mkImage (size dst)
    (imap (λ y r,
       imap (λ x p,
         default p (getpixel src (Z.of_nat x - position.1)
                                 (Z.of_nat y - position.2))) r)
       (rows dst)).

(** Pillow's bilinear resampling of an 8-bit band ([Resample.c]).

    For each output position the triangle filter, stretched by the scale
    factor when shrinking, is sampled around the source centre; the weights
    are normalised, turned into fixed-point integers with 22 fraction bits,
    and the weighted sum is rounded and clipped to [0, 255]. *)

Definition bilinear_filter (x : float) : float :=
  let x := (if x <? 0 then - x else x)%float in
  (if x <? 1 then 1 - x else 0)%float.

Definition PRECISION_BITS : Z := 32 - 8 - 2.

Definition precompute_coeffs (inSize outSize : Z) : list (Z * list Z) :=
  let scale := (float_of_int inSize / float_of_int outSize)%float in
  let filterscale := (if scale <? 1 then 1 else scale)%float in
  let support := (1 * filterscale)%float in
  let ss := (1 / filterscale)%float in
  map (λ xx : nat,
    let center := ((float_of_int (Z.of_nat xx) + 0.5) * scale)%float in
    let xmin := Z.max 0 (c_int (center - support + 0.5)%float) in
    let xmax := Z.min inSize (c_int (center + support + 0.5)%float) - xmin in
    let ws := map (λ x : nat,
                bilinear_filter
                  ((float_of_int (Z.of_nat x + xmin) - center + 0.5) * ss)%float)
              (seq 0 (Z.to_nat xmax)) in
    let ww := foldl PrimFloat.add 0%float ws in
    let ks := map (λ w, if (ww =? 0)%float then w else (w / ww)%float) ws in
    (xmin,
     map (λ k, c_int ((if k <? 0 then -0.5 else 0.5)
                      + k * float_of_int (Z.shiftl 1 PRECISION_BITS))%float) ks))
    (seq 0 (Z.to_nat outSize)).

Definition clip8 (v : Z) : Z :=
  Z.max 0 (Z.min 255 (Z.shiftr v PRECISION_BITS)).

(** One output sample: the source [line] weighted by the coefficients [c.2]
    starting at index [c.1]. *)
Definition convolve (line : list Z) (c : Z * list Z) : Z :=
  clip8 (foldl Z.add (Z.shiftl 1 (PRECISION_BITS - 1))
           (imap (λ i k, default 0 (line !! (Z.to_nat c.1 + i)%nat) * k) c.2)).

Definition resample_horizontal (coeffs : list (Z * list Z))
    (rs : list (list Z)) : list (list Z) :=
  map (λ r, map (convolve r) coeffs) rs.

Definition resample_vertical (coeffs : list (Z * list Z)) (width : nat)
    (rs : list (list Z)) : list (list Z) :=
  map (λ c, map (λ x, convolve (map (λ r, default 0 (r !! x)) rs) c)
                (seq 0 width)) coeffs.

(** ** NumPy arrays

    A two-dimensional float64 array: its shape and its rows. *)

Record ndarray := mkArray {
  shape : Z * Z;
  data : list (list float)
}.

Fixpoint chunks {A} (n m : nat) (a : list A) : list (list A) :=
  match n with
  | O => []
  | S n' => take m a :: chunks n' m (drop m a)
  end.

(** [np.array(a).reshape((n, m))] on a flat sequence *)
Definition np_reshape {A} (a : list A) (shp : Z * Z) : result (list (list A)) :=
  let '(n, m) := shp in
  if (0 <=? n) && (0 <=? m) && (Z.of_nat (length a) =? n * m)
  then Ok (chunks (Z.to_nat n) (Z.to_nat m) a)
  else Raise ValueError.

(** [ints / 255]: true division of an integer array by a scalar *)
Definition np_true_divide (shp : Z * Z) (a : list (list Z)) (d : Z) : ndarray :=
  mkArray shp (map (map (λ v, float_of_int v / float_of_int d)%float) a).

(** [dataset[row] = im.reshape((1, -1))]: the flattened [im] replaces the
    row when their lengths agree. *)
Definition np_setitem (dataset : ndarray) (row : nat) (im : ndarray)
    : result ndarray :=
  let flat := concat (data im) in
  if (Z.of_nat (length flat) =? (shape dataset).2)
     && (Z.of_nat row <? (shape dataset).1)
  then Ok (mkArray (shape dataset) (<[row := flat]> (data dataset)))
  else if Z.of_nat row <? (shape dataset).1 then Raise ValueError
  else Raise IndexError.

(** ** The world outside the interpreter

    Paths are split at "/" into their components; the empty path is the
    working directory.  The file system maps a path to what is stored there.
    Besides it the world holds what was printed, the figures shown by
    matplotlib, and the content of freshly allocated memory. *)

Fixpoint split_path (cur s : string) : list string :=
  match s with
  | EmptyString => [cur]
  | String c s' =>
      if Ascii.eqb c "/"%char then cur :: split_path "" s'
      else split_path (cur +:+ String c "") s'
  end.

Definition path_of (s : string) : list string :=
  (match s with String "/"%char _ => ["/"] | _ => [] end)
  ++ filter (λ c, c ≠ "") (split_path "" s).

Definition parent (p : list string) : list string :=
  take (length p - 1)%nat p.

(** A decoded image of any mode. *)
Inductive picture :=
  | Picture {A : Type} `{Pixel A} (im : Image A).

Inductive node :=
  | Dir
  | ImageFile (im : picture)
  | NpyFile (a : ndarray)
  | OtherFile.

Record World := mkWorld {
  fs : gmap (list string) node;
  stdout : list string;
  figures : list (list (string * picture * option string));
  junk : float
}.

Definition set_fs (f : gmap (list string) node) (w : World) : World :=
  mkWorld f (stdout w) (figures w) (junk w).

Definition path_exists (f : gmap (list string) node) (p : list string) : bool :=
  match p with
  | [] => true
  | _ => match f !! p with Some _ => true | None => false end
  end.

Definition is_dir (f : gmap (list string) node) (p : list string) : bool :=
  match p with
  | [] => true
  | _ => match f !! p with Some Dir => true | _ => false end
  end.

(** The error [open] and [mkdir] report when the directory that should hold
    the entry is not there.  The system resolves a path from its first
    component on: the first ancestor that is missing gives
    [FileNotFoundError] (ENOENT), the first one that is there without being
    a directory gives [NotADirectoryError] (ENOTDIR). *)
Fixpoint resolve_error (f : gmap (list string) node) (above rest : list string)
    : exn :=
  match rest with
  | [] => FileNotFoundError
  | x :: rest' =>
      match f !! (above ++ [x]) with
      | Some Dir => resolve_error f (above ++ [x]) rest'
      | Some _ => NotADirectoryError
      | None => FileNotFoundError
      end
  end.

Definition no_parent_error (f : gmap (list string) node) (p : list string) : exn :=
  resolve_error f [] (parent p).

(** [os.mkdir] *)
Definition os_mkdir (p : list string) (f : gmap (list string) node)
    : result (gmap (list string) node) :=
  if path_exists f p then Raise FileExistsError
  else if is_dir f (parent p) then Ok (<[p := Dir]> f)
  else Raise (no_parent_error f p).

(** [os.makedirs(name)]: create the missing ancestors, then the leaf.  The
    recursion is on the reversed path, so that the leaf comes first. *)
Fixpoint makedirs_rev (rp : list string) (f : gmap (list string) node)
    : result (gmap (list string) node) :=
  match rp with
  | [] => Raise FileExistsError
  | _ :: rhead =>
      f1 ← (match rhead with
            | [] => Ok f
            | _ => if path_exists f (reverse rhead) then Ok f
                   else makedirs_rev rhead f
            end);
      os_mkdir (reverse rp) f1
  end.

(** [file if file.endswith('.npy') else file + '.npy'] *)
Definition has_suffix (suf s : string) : bool :=
  let n := String.length s in
  let k := String.length suf in
  (k <=? n)%nat && String.eqb (substring (n - k) k s) suf.

Definition npy_name (file : string) : string :=
  if has_suffix ".npy" file then file else file +:+ ".npy".

(** ** The monad of the module's functions: state and exceptions *)

Definition M (A : Type) : Type := World → result A * World.

#[export] Instance M_ret : MRet M := λ A a w, (Ok a, w).
#[export] Instance M_bind : MBind M := λ A B k m w,
  match m w with
  | (Ok a, w') => k a w'
  | (Raise e, w') => (Raise e, w')
  end.

Definition lift {A} (r : result A) : M A := λ w, (r, w).

(** [print(s, end='')] *)
Definition print (s : string) : M () := λ w,
  (Ok (), mkWorld (fs w) (stdout w ++ [s]) (figures w) (junk w)).

(** [Image.open(file)] followed by the decoding of its pixels. *)
Definition Image_open (file : string) : M picture := λ w,
  (match fs w !! path_of file with
   | Some (ImageFile im) => Ok im
   | Some Dir => Raise IsADirectoryError
   | Some _ => Raise UnidentifiedImageError
   | None => Raise FileNotFoundError
   end, w).

(** The figure built by the plotting block: one titled panel per stage. *)
Definition plt_show (images : list (string * picture * option string)) : M () :=
  λ w, (Ok (), mkWorld (fs w) (stdout w) (figures w ++ [images]) (junk w)).

(** [os.path.exists(name)]: a name that ends in "/" is only found when a
    directory stands there. *)
Definition os_path_exists (name : string) : M bool := λ w,
  (Ok (if has_suffix "/" name then is_dir (fs w) (path_of name)
       else path_exists (fs w) (path_of name)), w).

Definition os_makedirs (name : string) : M () := λ w,
  match makedirs_rev (reverse (path_of name)) (fs w) with
  | Ok f => (Ok (), set_fs f w)
  | Raise e => (Raise e, w)
  end.

(** [np.save(file, arr)]: the array is written to [file], with ".npy"
    appended when the name lacks it; the directory must exist. *)
Definition np_save (file : string) (arr : ndarray) : M () := λ w,
  let p := path_of (npy_name file) in
  if is_dir (fs w) p then (Raise IsADirectoryError, w)
  else if is_dir (fs w) (parent p) then (Ok (), set_fs (<[p := NpyFile arr]> (fs w)) w)
  else (Raise (no_parent_error (fs w) p), w).


(** ** The limits of the libraries on sizes

    Pillow reads the two components of a size as C [int]s and NumPy counts
    the bytes of an array in an [npy_intp], a signed 64-bit integer.  Beyond
    these fixed limits, whether a large image or array can be created
    depends on the memory the process can get: [enough_memory cells] tells
    whether it can hold one more image or array of [cells] elements.  The
    functions that allocate take this part of their environment as the
    implicit argument [memory]. *)

Class Memory := enough_memory : Z → bool.

Definition INT_MAX : Z := 2147483647.
Definition INT_MIN : Z := -2147483648.
Definition NPY_MAX_INTP : Z := 9223372036854775807.

(** Does the Python integer fit a C [int]? *)
Definition fits_c_int (z : Z) : bool := (INT_MIN <=? z) && (z <=? INT_MAX).

(** A dimension as NumPy counts it when it sizes an array: one of length
    zero is left out of the product. *)
Definition nonzero (d : Z) : Z := if d =? 0 then 1 else d.

Section program.
Context {memory : Memory}.

(** [image.resize(size, Image.BILINEAR)].  A request for the size the image
    already has returns a copy.  Otherwise the size is handed to the C
    function, which reads it as two [int]s ([OverflowError] when one does
    not fit), refuses sizes below one ([ValueError]) and allocates the
    result ([MemoryError]).  A horizontal pass runs when the width changes
    and a vertical one when the height changes. *)
Definition Image_resize (im : Image Z) (sz : Z * Z) : result (Image Z) :=
  let '(xsize, ysize) := sz in
  if (xsize =? (size im).1) && (ysize =? (size im).2) then Ok im
  else if negb (fits_c_int xsize && fits_c_int ysize) then Raise OverflowError
  else if (xsize <? 1) || (ysize <? 1) then Raise ValueError
  else if negb (enough_memory (xsize * ysize)) then Raise MemoryError
  else
    let r1 := if xsize =? (size im).1 then rows im
              else resample_horizontal
                     (precompute_coeffs (size im).1 xsize) (rows im) in
    let r2 := if ysize =? (size im).2 then r1
              else resample_vertical
                     (precompute_coeffs (size im).2 ysize) (Z.to_nat xsize) r1 in
    Ok (mkImage sz r2).

(** [np.empty(shape)]: an array of the given shape with unspecified
    content; [junk] is what happens to be in the memory.  A negative
    dimension is refused, and so is a shape whose byte count (eight bytes
    per element, dimensions of length zero left out) does not fit an
    [npy_intp], both with [ValueError]; an array that is not empty needs
    its memory. *)
Definition np_empty (junk : float) (shp : Z * Z) : result ndarray :=
  let '(n, m) := shp in
  if (n <? 0) || (m <? 0) then Raise ValueError
  else if NPY_MAX_INTP <? 8 * nonzero n * nonzero m then Raise ValueError
  else if negb ((n * m =? 0) || enough_memory (n * m)) then Raise MemoryError
  else Ok (mkArray shp (replicate (Z.to_nat n) (replicate (Z.to_nat m) junk))).

(** ** The module *)

Definition PATH_SAVE : string := "data/clean/".

Definition PATH_TRAIN_GENUINE : string :=
  "data/clean/train-dutch-offline-genuine.npy".
Definition PATH_TRAIN_FORGERIES : string :=
  "data/clean/train-dutch-offline-forgeries.npy".

(** [threshold = int(0.90 * mode(image.getdata())[0][0])] *)
Definition threshold_of (image : Image Z) : result Z :=
  m ← stats_mode_00 (Image_getdata image);
  int (0.90 * float_of_int m)%float.

(** [lut = [0] * threshold + [255] * (256 - threshold)] *)
Definition lut_of (threshold : Z) : list Z :=
  replicate (Z.to_nat threshold) 0 ++ replicate (Z.to_nat (256 - threshold)) 255.

Definition pad_image_square_center {A} `{Pixel A} (image : Image A) : Image A :=
  let new_size := Z.max (size image).1 (size image).2 in
  let new_image := Image_new (new_size, new_size) white in
  let position := ((new_size - (size image).1) `div` 2,
                   (new_size - (size image).2) `div` 2) in
  Image_paste new_image image position.

Definition preprocess_image {A} `{Pixel A} (image : Image A) (final_res : Z)
    (padding plot : bool) : M ndarray :=
  let images := [("original", Picture image, None)] in
  let image := Image_convert_L image in
  let images := images ++ [("gray scale", Picture image, Some "gray")] in
  threshold ← lift (threshold_of image);
  let lut := lut_of threshold in
  image ← lift (Image_point image lut);
  let images := images ++ [("black & white", Picture image, Some "gray")] in
  let '(image, images) :=
    if padding
    then let image := pad_image_square_center image in
         (image, images ++ [("padding", Picture image, Some "gray")])
    else (image, images) in
  image ← lift (Image_resize image (final_res, final_res));
  let images := images ++ [("resize", Picture image, Some "gray")] in
  _ ← (if plot then plt_show images else mret ());
  a ← lift (np_reshape (Image_getdata image) (final_res, final_res));
  mret (np_true_divide (final_res, final_res) a 255).

Definition CR : string := String "013"%char "".
Definition LF : string := String "010"%char "".

(** ['\r{}/{}'.format(row+1, num_files)] *)
Definition progress (row : nat) (num_files : Z) : string :=
  CR +:+ pretty (Z.of_nat row + 1) +:+ "/" +:+ pretty num_files.

(** The body of [for row, file in enumerate(files_list)], from [row] on. *)
Fixpoint batch_loop (files : list string) (row : nat) (num_files final_res : Z)
    (padding : bool) (dataset : ndarray) : M ndarray :=
  match files with
  | [] => mret dataset
  | file :: rest =>
      _ ← print (progress row num_files);
      im ← Image_open file;
      im ← (match im with
            | Picture im => preprocess_image im final_res padding false
            end);
      dataset ← lift (np_setitem dataset row im);
      batch_loop rest (S row) num_files final_res padding dataset
  end.

Definition batch_preprocess (files_list : list string) (dest_file : string)
    (final_res : Z) (padding : bool) : M () :=
  let num_files := Z.of_nat (length files_list) in
  dataset ← (λ w, (np_empty (junk w) (num_files, final_res * final_res), w));
  dataset ← batch_loop files_list 0 num_files final_res padding dataset;
  ex ← os_path_exists PATH_SAVE;
  _ ← (if negb ex then os_makedirs PATH_SAVE else mret ());
  _ ← np_save dest_file dataset;
  print (" - Done!" +:+ LF).

(** ** Notions used by the specification *)

(** Lines 36-38 of [preprocess_image] on their own: derive the threshold
    and apply the lookup table. *)
Definition binarize (image : Image Z) : result (Image Z) :=
  threshold ← threshold_of image;
  Image_point image (lut_of threshold).

(** Only the two levels 0 (ink) and 255 (background) occur. *)
Definition two_level (im : Image Z) : Prop :=
  Forall (Forall (λ v, v = 0 ∨ v = 255)) (rows im).

(** The rows agree with the size, and the image is not empty. *)
Definition shaped {A} (im : Image A) : Prop :=
  0 < (size im).1 ∧ 0 < (size im).2
  ∧ length (rows im) = Z.to_nat (size im).2
  ∧ Forall (λ r, length r = Z.to_nat (size im).1) (rows im).

(** The comparison the lookup table encodes. *)
Definition threshold_pixel (t v : Z) : Z := if v <? t then 0 else 255.

(** Does the float computation of the threshold agree, for the mode [m],
    with the exact integer part of nine tenths of [m]? *)
Definition threshold_check (m : Z) : bool :=
  match int (0.90 * float_of_int m)%float with
  | Ok t => t =? (9 * m) `div` 10
  | Raise _ => false
  end.



(** What [preprocess_image] computes, leaving out the list of intermediate
    stages that only the plot uses. *)
Definition pipeline {A} `{Pixel A} (image : Image A) (final_res : Z)
    (padding : bool) : result ndarray :=
  image ← binarize (Image_convert_L image);
  let image := if padding then pad_image_square_center image else image in
  image ← Image_resize image (final_res, final_res);
  a ← np_reshape (Image_getdata image) (final_res, final_res);
  mret (np_true_divide (final_res, final_res) a 255).

(** Lines 126-127 of [batch_preprocess]: open one file and run the
    pipeline on it. *)
Definition load_and_process (file : string) (final_res : Z) (padding : bool)
    : M ndarray :=
  im ← Image_open file;
  match im with
  | Picture im => preprocess_image im final_res padding false
  end.

(** Lines 130-134 of [batch_preprocess]: make sure the save directory is
    there, write the dataset, report. *)
Definition finish (dest_file : string) (dataset : ndarray) : M () :=
  ex ← os_path_exists PATH_SAVE;
  _ ← (if negb ex then os_makedirs PATH_SAVE else mret ());
  _ ← np_save dest_file dataset;
  print (" - Done!" +:+ LF).

(** The world after some more strings were printed. *)
Definition printed (w : World) (out : list string) : World :=
  mkWorld (fs w) (stdout w ++ out) (figures w) (junk w).



(** Opening and processing the file succeeds. *)
Definition processes (w : World) (final_res : Z) (padding : bool)
    (file : string) : bool :=
  match (load_and_process file final_res padding w).1 with
  | Ok _ => true
  | Raise _ => false
  end.


(** An array of [n] rows and [m] columns can be created: this is when
    [np_empty] returns one. *)
Definition can_hold (n m : Z) : bool :=
  (0 <=? n) && (0 <=? m) && (8 * nonzero n * nonzero m <=? NPY_MAX_INTP)
  && ((n * m =? 0) || enough_memory (n * m)).

(** The dataset before the loop fills it: what [np_empty] returns. *)
Definition blank (junk : float) (n m : Z) : ndarray :=
  mkArray (n, m) (replicate (Z.to_nat n) (replicate (Z.to_nat m) junk)).

(** The flattened sample: one row of the dataset. *)
Definition flat (a : ndarray) : list float := concat (data a).


(** ** Concrete inputs *)

(** Three pixels by two; the intensity 200 is the most frequent one. *)
Definition sample : Image Z :=
  mkImage (3, 2) [[200; 200; 10]; [200; 50; 200]].


(** An image that is already binary. *)
Definition black_white : Image Z :=
  mkImage (2, 2) [[0; 255]; [255; 0]].

(** Ten pixels by four, all ink. *)
Definition wide : Image Z :=
  mkImage (10, 4) (replicate 4 (replicate 10 0)).

Definition scarce : Memory := λ cells, cells <=? 16777216.

(** Nothing on disk, nothing printed, nothing shown. *)
Definition empty_world : World := mkWorld ∅ [] [] 0%float.

(** A disk with two image files and nothing else. *)
Definition disk : World :=
  mkWorld (<[ ["a.png"] := ImageFile (Picture sample) ]>
             (<[ ["scans"; "b.png"] := ImageFile (Picture wide) ]> ∅))
          [] [] 0%float.



(** ** File discovery

    [glob.glob] as the module uses it: a directory without wildcards,
    optionally followed by the component "**" (any chain of sub-directories,
    with [recursive=True]), and a file-name pattern made of literal
    characters, [*] and [[0-9]].  Names are compared case-sensitively; a
    name starting with a dot is only matched by a pattern starting with a
    dot, and "**" does not descend into such directories.  The order of the
    result is that of the directory listing, which is not specified. *)

Inductive glob_item :=
  | Star
  | Digit
  | Lit (c : ascii).

(** The items of a file-name pattern ([fnmatch.translate]). *)
Fixpoint fnmatch_translate (pat : string) : list glob_item :=
  match pat with
  | EmptyString => []
  | String "*"%char pat' => Star :: fnmatch_translate pat'
  | String "["%char
      (String "0"%char (String "-"%char (String "9"%char (String "]"%char pat')))) =>
      Digit :: fnmatch_translate pat'
  | String c pat' => Lit c :: fnmatch_translate pat'
  end.

Definition is_digit (c : ascii) : bool :=
  (48 <=? nat_of_ascii c)%nat && (nat_of_ascii c <=? 57)%nat.

(** Does the whole of [name] match the items? *)
Fixpoint fnmatch_items (pat : list glob_item) (name : string) : bool :=
  match pat with
  | [] => match name with EmptyString => true | _ => false end
  | Lit c :: pat' =>
      match name with
      | String d name' => Ascii.eqb c d && fnmatch_items pat' name'
      | EmptyString => false
      end
  | Digit :: pat' =>
      match name with
      | String d name' => is_digit d && fnmatch_items pat' name'
      | EmptyString => false
      end
  | Star :: pat' =>
      (fix star (s : string) : bool :=
         fnmatch_items pat' s
         || match s with
            | String _ s' => star s'
            | EmptyString => false
            end) name
  end.

Definition fnmatch (name pat : string) : bool :=
  fnmatch_items (fnmatch_translate pat) name.

Definition ishidden (name : string) : bool :=
  match name with
  | String "."%char _ => true
  | _ => false
  end.

(** [os.listdir]: the names of the entries directly in [d]. *)
Definition os_listdir (f : gmap (list string) node) (d : list string) : list string :=
  omap (λ '(p, _), if bool_decide (parent p = d) then last p else None)
       (map_to_list f).

(** The names in the directory [d] that match [pattern]. *)
Definition glob1 (f : gmap (list string) node) (d : list string)
    (pattern : string) : list string :=
  if is_dir f d
  then List.filter
         (λ x, (ishidden pattern || negb (ishidden x)) && fnmatch x pattern)
         (os_listdir f d)
  else [].

(** [p] relative to the directory [d], when [p] lies below [d]. *)
Fixpoint relative_to (d p : list string) : option (list string) :=
  match d, p with
  | [], _ => Some p
  | x :: d', y :: p' => if String.eqb x y then relative_to d' p' else None
  | _ :: _, [] => None
  end.

(** Can "**" walk from [d] down the chain [rel]?  Every step must be a
    directory that is not hidden. *)
Fixpoint walkable (f : gmap (list string) node) (d rel : list string) : bool :=
  match rel with
  | [] => true
  | x :: rel' =>
      negb (ishidden x) && is_dir f (d ++ [x]) && walkable f (d ++ [x]) rel'
  end.

(** The sub-directories "**" reaches below [d], relative to [d]. *)
Definition rlistdir (f : gmap (list string) node) (d : list string)
    : list (list string) :=
  omap (λ '(p, _),
          match relative_to d p with
          | Some (x :: rel) =>
              if walkable f d (x :: rel) then Some (x :: rel) else None
          | _ => None
          end)
       (map_to_list f).

(** The part of a path name after its last "/", and the part up to and
    including that "/". *)
Definition basename (s : string) : string := List.last (split_path "" s) "".

Definition dirname (s : string) : string :=
  substring 0 (String.length s - String.length (basename s)) s.

(** [rel] written as a path prefix: each component followed by "/". *)
Definition join_slash (rel : list string) : string :=
  foldr (λ c s, c +:+ "/" +:+ s) "" rel.

(** [glob.glob(pathname, recursive=recursive)] *)
Definition glob_glob (pathname : string) (recursive : bool) : M (list string) :=
  λ w,
    let pattern := basename pathname in
    let dir := dirname pathname in
    (Ok (if recursive && has_suffix "**/" dir
         then
           let base := substring 0 (String.length dir - 3) dir in
           flat_map
             (λ rel, map (λ name, base +:+ join_slash rel +:+ name)
                         (glob1 (fs w) (path_of base ++ rel) pattern))
             ([] :: rlistdir (fs w) (path_of base))
         else map (λ name, dir +:+ name) (glob1 (fs w) (path_of dir) pattern)),
     w).

(** [s * n] on strings *)
Fixpoint str_mul (s : string) (n : nat) : string :=
  match n with
  | O => ""
  | S n' => s +:+ str_mul s n'
  end.

Definition fetch_all_raw_genuine : M (list string) :=
  let path := "data/raw/trainingSet/OfflineSignatures/Dutch/TrainingSet/"
              +:+ "Offline Genuine/" in
  files ← glob_glob (path +:+ "*.PNG") false;
  let path := "data/raw/Testdata_SigComp2011/SigComp11-Offlinetestset/Dutch/"
              +:+ "Reference(646)/" in
  more ← glob_glob (path +:+ "**/*.*") true;
  let files := files ++ more in
  let path := "data/raw/Testdata_SigComp2011/SigComp11-Offlinetestset/Dutch/"
              +:+ "Questioned(1287)/" in
  more ← glob_glob (path +:+ "**/*_" +:+ str_mul "[0-9]" 3 +:+ ".*") true;
  let files := files ++ more in
  mret files.

Definition fetch_all_raw_forgeries : M (list string) :=
  let path := "data/raw/trainingSet/OfflineSignatures/Dutch/TrainingSet/"
              +:+ "Offline Forgeries/" in
  files ← glob_glob (path +:+ "*.png") false;
  let path := "data/raw/Testdata_SigComp2011/SigComp11-Offlinetestset/Dutch/"
              +:+ "Questioned(1287)/" in
  more ← glob_glob (path +:+ "**/*_" +:+ str_mul "[0-9]" 7 +:+ ".*") true;
  let files := files ++ more in
  mret files.

(** How the script ends: normally, with an exception of a call, or with the
    failed assertion and its message. *)
Inductive outcome :=
  | Finished
  | Raised (e : exn)
  | AssertionError (message : string).

(** The body under [if __name__ == '__main__']. *)
Definition main (w : World) : outcome * World :=
  let final_res := 128 in
  let padding := true in
  let run : M Z :=
    files_list ← fetch_all_raw_genuine;
    let n_sig := Z.of_nat (length files_list) in
    _ ← batch_preprocess files_list PATH_TRAIN_GENUINE final_res padding;
    files_list ← fetch_all_raw_forgeries;
    let n_sig := n_sig + Z.of_nat (length files_list) in
    _ ← batch_preprocess files_list PATH_TRAIN_FORGERIES final_res padding;
    mret n_sig in
  match run w with
  | (Ok n_sig, w') =>
      let message := "Was expecting to pre-process a total of 2295 images but got "
                     +:+ pretty n_sig +:+ " instead" in
      if n_sig =? 2295 then (Finished, w') else (AssertionError message, w')
  | (Raise e, w') => (Raised e, w')
  end.

(** ** Notions used to describe the discovery *)

Fixpoint all_digits (s : string) : bool :=
  match s with
  | EmptyString => true
  | String c s' => is_digit c && all_digits s'
  end.

(** [name] reads "..._" followed by exactly [n] digits, a dot, and
    anything. *)
Definition numbered (n : nat) (name : string) : Prop :=
  ∃ pre ds post,
    name = pre +:+ "_" +:+ ds +:+ "." +:+ post
    ∧ String.length ds = n ∧ all_digits ds = true.

(** [s] names the entry [name] of the directory reached from [d] along
    [rel]: the chain can be walked, the directory exists, the entry is
    there and is not hidden, and [s] spells the path with [prefix] standing
    for [d]. *)
Definition found (f : gmap (list string) node) (prefix : string)
    (d rel : list string) (name s : string) : Prop :=
  walkable f d rel = true
  ∧ is_dir f (d ++ rel) = true
  ∧ is_Some (f !! (d ++ rel ++ [name]))
  ∧ ishidden name = false
  ∧ s = prefix +:+ join_slash rel +:+ name.

Definition GENUINE_DIR : list string :=
  ["data"; "raw"; "trainingSet"; "OfflineSignatures"; "Dutch"; "TrainingSet";
   "Offline Genuine"].
Definition FORGERIES_DIR : list string :=
  ["data"; "raw"; "trainingSet"; "OfflineSignatures"; "Dutch"; "TrainingSet";
   "Offline Forgeries"].
Definition REFERENCE_DIR : list string :=
  ["data"; "raw"; "Testdata_SigComp2011"; "SigComp11-Offlinetestset"; "Dutch";
   "Reference(646)"].
Definition QUESTIONED_DIR : list string :=
  ["data"; "raw"; "Testdata_SigComp2011"; "SigComp11-Offlinetestset"; "Dutch";
   "Questioned(1287)"].

(** A path component as a file system has them: not empty, no "/". *)
Fixpoint no_slash (s : string) : bool :=
  match s with
  | EmptyString => true
  | String c s' => negb (Ascii.eqb c "/"%char) && no_slash s'
  end.

Definition clean (c : string) : bool := negb (String.eqb c "") && no_slash c.

Definition clean_names (f : gmap (list string) node) : bool :=
  forallb (λ '(p, _), forallb clean p) (map_to_list f).

(** How often the character [c] occurs in [s]. *)
Fixpoint count_char (c : ascii) (s : string) : nat :=
  match s with
  | EmptyString => O
  | String d s' => (if Ascii.eqb c d then 1 else 0) + count_char c s'
  end.

(** Do [a] and [b] differ at a position both have? *)
Fixpoint diverge (a b : string) : bool :=
  match a, b with
  | String x a', String y b' => negb (Ascii.eqb x y) || diverge a' b'
  | _, _ => false
  end.

(** [f] with every prefix of [p], taken below [above], made a directory. *)
Fixpoint with_dirs (above p : list string) (f : gmap (list string) node)
    : gmap (list string) node :=
  match p with
  | [] => f
  | x :: p' => with_dirs (above ++ [x]) p' (<[above ++ [x] := Dir]> f)
  end.

(** A small raw data set: one training image per class, one reference
    image, two questioned images, and a questioned name that carries both a
    three-digit and a seven-digit number. *)
Definition raw_disk : World :=
  mkWorld
    (<[GENUINE_DIR ++ ["001_1.PNG"] := ImageFile (Picture sample)]>
     (<[FORGERIES_DIR ++ ["0101001_1.png"] := ImageFile (Picture wide)]>
      (<[REFERENCE_DIR ++ ["001"; "001_1.png"] := ImageFile (Picture sample)]>
       (<[QUESTIONED_DIR ++ ["001"; "001_001.png"] := ImageFile (Picture sample)]>
        (<[QUESTIONED_DIR ++ ["001"; "001_0101001.png"] := ImageFile (Picture wide)]>
         (<[QUESTIONED_DIR ++ ["a_001.b_0101001.png"] := ImageFile (Picture black_white)]>
          (with_dirs [] GENUINE_DIR
           (with_dirs [] FORGERIES_DIR
            (with_dirs [] (REFERENCE_DIR ++ ["001"])
             (with_dirs [] (QUESTIONED_DIR ++ ["001"]) ∅))))))))))
    [] [] 0%float.

(** What the two discovery functions list on [raw_disk]. *)
Definition raw_genuine : list string :=
  Eval vm_compute in
    match (fetch_all_raw_genuine raw_disk).1 with Ok l => l | Raise _ => [] end.

Definition raw_forgeries : list string :=
  Eval vm_compute in
    match (fetch_all_raw_forgeries raw_disk).1 with Ok l => l | Raise _ => [] end.

(** The questioned name of [raw_disk] that both functions list. *)
Definition twice_listed : string :=
  join_slash QUESTIONED_DIR +:+ "a_001.b_0101001.png".

End program.


(** * Properties *)

(** ** Lists and booleans *)

Lemma forallb_Forall_true {A} (f : A → bool) (l : list A) :
  forallb f l = true ↔ Forall (λ x, f x = true) l.
Proof.
  induction l as [|x l IH]; simpl.
  - split; [constructor | reflexivity].
  - rewrite andb_true_iff, Forall_cons, IH. reflexivity.
Qed.

Section well_formed.
Context {A : Type} `{Pixel A}.

Lemma well_formed_shaped (im : Image A) :
  well_formed im = true → shaped im.
Proof.
  unfold well_formed, shaped. rewrite !andb_true_iff, forallb_Forall_true.
  intros [[[Hw Hh] Hl] Hr]. repeat split; [lia | lia | lia |].
  eapply Forall_impl; [exact Hr|]. simpl. intros r Hx.
  apply andb_true_iff in Hx. lia.
Qed.

Lemma well_formed_valid (im : Image A) :
  well_formed im = true →
  Forall (Forall (λ p, valid_px p = true)) (rows im).
Proof.
  unfold well_formed. rewrite !andb_true_iff, forallb_Forall_true.
  intros [_ Hr]. eapply Forall_impl; [exact Hr|]. simpl. intros r Hx.
  apply andb_true_iff in Hx. apply forallb_Forall_true, Hx.
Qed.

Lemma well_formed_intro (im : Image A) :
  shaped im → Forall (Forall (λ p, valid_px p = true)) (rows im) →
  well_formed im = true.
Proof.
  intros (Hw & Hh & Hl & Hr) Hv. unfold well_formed.
  rewrite !andb_true_iff, forallb_Forall_true. repeat split; [lia | lia | lia |].
  rewrite Forall_forall in *. intros r Hin.
  apply andb_true_iff. split.
  - specialize (Hr r Hin). lia.
  - apply forallb_Forall_true, Hv, Hin.
Qed.
End well_formed.

(** ** The mode *)

Lemma insert_unique_elem (x v : Z) (l : list Z) :
  x ∈ insert_unique v l ↔ x = v ∨ x ∈ l.
Proof.
  induction l as [|y l IH]; simpl.
  - set_solver.
  - destruct (v <? y) eqn:Hlt; [set_solver|].
    destruct (v =? y) eqn:Heq.
    + apply Z.eqb_eq in Heq. set_solver.
    + rewrite elem_of_cons, IH. set_solver.
Qed.

Lemma np_unique_elem (x : Z) (a : list Z) : x ∈ np_unique a ↔ x ∈ a.
Proof.
  unfold np_unique. induction a as [|v a IH]; simpl; [done|].
  rewrite insert_unique_elem, IH. set_solver.
Qed.

Lemma count_score_nonneg a v : 0 ≤ count_score a v.
Proof. unfold count_score. lia. Qed.

Lemma count_score_elem a v : v ∈ a ↔ 0 < count_score a v.
Proof.
  unfold count_score. rewrite list_elem_of_In, (count_occ_In Z.eq_dec). lia.
Qed.

(** After the walk over [scores] the kept count bounds the count of every
    score seen, and the kept value either is the initial one or a score that
    reaches the kept count. *)
Lemma mode_walk a scores m0 c0 :
  let '(m, c) := foldl (mode_step a) (m0, c0) scores in
  c0 ≤ c ∧ (∀ s, s ∈ scores → count_score a s ≤ c)
  ∧ ((m, c) = (m0, c0) ∨ (m ∈ scores ∧ count_score a m = c)).
Proof.
  revert m0 c0. induction scores as [|s scores IH]; intros m0 c0; simpl.
  - split; [lia|]. split; [set_solver | by left].
  - specialize (IH (if c0 <? count_score a s then s else m0)
                   (Z.max (count_score a s) c0)).
    destruct (foldl _ _ scores) as [m c].
    destruct IH as (Hc & Hall & Hm). split; [lia|]. split.
    + intros s' [->|Hin]%elem_of_cons; [lia | by apply Hall].
    + destruct Hm as [Heq | [Hin Hcnt]].
      * injection Heq as -> ->.
        destruct (c0 <? count_score a s) eqn:Hlt.
        -- right. split; [set_solver | lia].
        -- left. f_equal. lia.
      * right. split; [set_solver | done].
Qed.

Lemma stats_mode_00_spec (a : list Z) :
  a ≠ [] →
  ∃ m, stats_mode_00 a = Ok m ∧ m ∈ a
       ∧ ∀ v, count_score a v ≤ count_score a m.
Proof.
  intros Hne. unfold stats_mode_00, stats_mode.
  pose proof (mode_walk a (np_unique a) 0 0) as Hwalk.
  destruct a as [|x a']; [done|]. set (a := x :: a') in *.
  destruct (foldl _ _ _) as [m c]. simpl.
  destruct Hwalk as (_ & Hall & Hm).
  assert (Hx : 0 < count_score a x) by (apply count_score_elem; set_solver).
  assert (Hxc : count_score a x ≤ c) by (apply Hall, np_unique_elem; set_solver).
  destruct Hm as [Heq | [Hin Hcnt]]; [injection Heq as -> ->; lia|].
  exists m. split; [done|]. split; [by apply np_unique_elem|].
  intros v. rewrite Hcnt.
  destruct (decide (v ∈ a)) as [Hv | Hv].
  - by apply Hall, np_unique_elem.
  - pose proof (count_score_nonneg a v). rewrite count_score_elem in Hv. lia.
Qed.

(** ** The threshold *)

Lemma threshold_checked :
  forallb (λ n, threshold_check (Z.of_nat n)) (seq 0 256) = true.
Proof. vm_compute. reflexivity. Qed.

(** On the 256 intensities the float product, truncated, is the exact
    integer part of nine tenths. *)
Lemma int_scaled_byte (m : Z) :
  0 ≤ m ≤ 255 → int (0.90 * float_of_int m)%float = Ok ((9 * m) `div` 10).
Proof.
  intros Hm. pose proof threshold_checked as Hall.
  rewrite forallb_forall in Hall.
  specialize (Hall (Z.to_nat m)). rewrite Z2Nat.id in Hall by lia.
  assert (Hin : In (Z.to_nat m) (seq 0 256)) by (apply in_seq; lia).
  specialize (Hall Hin). unfold threshold_check in Hall.
  destruct (int _) as [t|e]; [|done]. apply Z.eqb_eq in Hall. by subst.
Qed.

Lemma getdata_nonempty {A} (im : Image A) : shaped im → Image_getdata im ≠ [].
Proof.
  intros (Hw & Hh & Hl & Hr). unfold Image_getdata.
  destruct (rows im) as [|r rs]; [simpl in Hl; lia|].
  apply Forall_cons in Hr as [Hr _].
  destruct r; [simpl in Hr; lia | done].
Qed.

Lemma getdata_bytes (im : Image Z) :
  well_formed im = true → Forall (λ v, 0 ≤ v ≤ 255) (Image_getdata im).
Proof.
  intros Hwf%well_formed_valid. unfold Image_getdata.
  apply Forall_concat. eapply Forall_impl; [exact Hwf|]. simpl.
  intros r Hr. eapply Forall_impl; [exact Hr|]. simpl.
  intros v Hv. unfold byteb in Hv. lia.
Qed.

Lemma threshold_of_spec (im : Image Z) :
  well_formed im = true →
  ∃ m, stats_mode_00 (Image_getdata im) = Ok m
       ∧ m ∈ Image_getdata im ∧ 0 ≤ m ≤ 255
       ∧ (∀ v, count_score (Image_getdata im) v ≤ count_score (Image_getdata im) m)
       ∧ threshold_of im = Ok ((9 * m) `div` 10).
Proof.
  intros Hwf.
  destruct (stats_mode_00_spec (Image_getdata im)) as (m & Hm & Hin & Hmax).
  { by apply getdata_nonempty, well_formed_shaped. }
  assert (Hb : 0 ≤ m ≤ 255).
  { pose proof (getdata_bytes im Hwf) as Hall.
    rewrite Forall_forall in Hall. by apply Hall. }
  exists m. repeat split; try done; try lia.
  unfold threshold_of. rewrite Hm. simpl. by apply int_scaled_byte.
Qed.

(** ** The lookup table *)

Lemma lut_of_length t : 0 ≤ t ≤ 256 → Z.of_nat (length (lut_of t)) = 256.
Proof.
  intros Ht. unfold lut_of. rewrite length_app, !length_replicate. lia.
Qed.

Lemma lut_of_lookup t v :
  0 ≤ t ≤ 256 → 0 ≤ v ≤ 255 →
  lut_of t !! Z.to_nat v = Some (if v <? t then 0 else 255).
Proof.
  intros Ht Hv. unfold lut_of.
  destruct (v <? t) eqn:Hlt.
  - rewrite lookup_app_l by (rewrite length_replicate; lia).
    apply lookup_replicate_2. lia.
  - rewrite lookup_app_r by (rewrite length_replicate; lia).
    apply lookup_replicate_2. rewrite length_replicate. lia.
Qed.


(** The table applied to an image of bytes is the pointwise comparison with
    the threshold. *)
Lemma Image_point_lut (im : Image Z) t :
  0 ≤ t ≤ 256 → Forall (Forall (λ v, 0 ≤ v ≤ 255)) (rows im) →
  Image_point im (lut_of t)
  = Ok (mkImage (size im) (map (map (threshold_pixel t)) (rows im))).
Proof.
  intros Ht Hb. unfold Image_point.
  rewrite lut_of_length by done. simpl. do 2 f_equal.
  apply map_ext_Forall. eapply Forall_impl; [exact Hb|]. simpl.
  intros r Hr. apply map_ext_Forall. eapply Forall_impl; [exact Hr|]. simpl.
  intros v Hv. by rewrite lut_of_lookup.
Qed.

(** ** Threshold derivation and binarization *)



Lemma binarize_spec (im : Image Z) :
  well_formed im = true →
  ∃ m, threshold_of im = Ok ((9 * m) `div` 10) ∧ 0 ≤ m ≤ 255
       ∧ stats_mode_00 (Image_getdata im) = Ok m
       ∧ m ∈ Image_getdata im
       ∧ binarize im
         = Ok (mkImage (size im)
                 (map (map (threshold_pixel ((9 * m) `div` 10))) (rows im))).
Proof.
  intros Hwf. destruct (threshold_of_spec im Hwf) as (m & Hm & Hin & Hb & Hmax & Ht).
  exists m. repeat split; try done; try lia.
  unfold binarize. rewrite Ht. simpl. apply Image_point_lut.
  - split; [apply Z.div_pos; lia | ].
    apply Z.lt_le_incl, Z.div_lt_upper_bound; lia.
  - pose proof (well_formed_valid im Hwf) as Hv.
    eapply Forall_impl; [exact Hv|]. simpl. intros r Hr.
    eapply Forall_impl; [exact Hr|]. simpl. unfold byteb. lia.
Qed.

Lemma two_level_map t (rs : list (list Z)) s :
  two_level (mkImage s (map (map (threshold_pixel t)) rs)).
Proof.
  unfold two_level. simpl. apply Forall_forall. intros r Hr.
  apply list_elem_of_In, in_map_iff in Hr as (r0 & <- & _).
  apply Forall_forall. intros v Hv.
  apply list_elem_of_In, in_map_iff in Hv as (v0 & <- & _).
  unfold threshold_pixel. destruct (_ <? _); auto.
Qed.



Lemma threshold_pixel_idem t v :
  0 ≤ t ≤ 255 → 0 ≤ v →
  threshold_pixel t (threshold_pixel t v) = threshold_pixel t v.
Proof.
  intros Ht Hv. unfold threshold_pixel.
  destruct (v <? t) eqn:H1; [destruct (0 <? t) eqn:H2 | destruct (255 <? t) eqn:H2];
    try done; lia.
Qed.

(** C5: with a fixed threshold between 0 and 255, applying the threshold
    step to an image of zeros and 255s and then to its result gives that
    same result again. *)
Theorem threshold_step_idempotent (im : Image Z) (t : Z) :
  0 ≤ t ≤ 255 → two_level im →
  ∃ once, Image_point im (lut_of t) = Ok once
          ∧ Image_point once (lut_of t) = Ok once.
Proof.
  intros Ht Hbin. eexists. split.
  - apply Image_point_lut; [lia|].
    eapply Forall_impl; [exact Hbin|]. simpl. intros r Hr.
    eapply Forall_impl; [exact Hr|]. simpl. lia.
  - rewrite Image_point_lut; [|lia|].
    + simpl. do 2 f_equal. rewrite map_map. apply map_ext_Forall.
      eapply Forall_impl; [exact Hbin|]. simpl. intros r Hr.
      rewrite map_map. apply map_ext_Forall.
      eapply Forall_impl; [exact Hr|]. simpl. intros v Hv.
      apply threshold_pixel_idem; lia.
    + pose proof (two_level_map t (rows im) (size im)) as Htwo.
      eapply Forall_impl; [exact Htwo|]. simpl. intros r Hr.
      eapply Forall_impl; [exact Hr|]. simpl. lia.
Qed.

Lemma threshold_step_idempotent_witness :
  ∃ once, Image_point black_white (lut_of 128) = Ok once
          ∧ Image_point once (lut_of 128) = Ok once.
Proof.
  apply (threshold_step_idempotent black_white 128); [lia|].
  unfold two_level, black_white. simpl.
  repeat constructor; lia.
Defined.

Lemma getpixel_elem {A} (im : Image A) x y v :
  getpixel im x y = Some v → ∃ r, r ∈ rows im ∧ v ∈ r.
Proof.
  unfold getpixel. destruct (_ && _); [|done].
  destruct (rows im !! Z.to_nat y) as [r|] eqn:Hr; simpl; [|done].
  intros Hx. exists r. split; eapply list_elem_of_lookup_2; eauto.
Qed.



(** ** Padding *)

Lemma getpixel_inside {A} (im : Image A) x y :
  shaped im → 0 ≤ x < (size im).1 → 0 ≤ y < (size im).2 →
  is_Some (getpixel im x y).
Proof.
  intros (_ & _ & Hl & Hr) Hx Hy. unfold getpixel.
  replace ((0 <=? x) && (0 <=? y)) with true by lia.
  destruct (lookup_lt_is_Some_2 (rows im) (Z.to_nat y)) as [r Hrow]; [lia|].
  rewrite Hrow. simpl. apply lookup_lt_is_Some_2.
  rewrite Forall_forall in Hr.
  rewrite (Hr r (list_elem_of_lookup_2 _ _ _ Hrow)). lia.
Qed.

Lemma getpixel_outside {A} (im : Image A) x y :
  shaped im → ¬ (0 ≤ x < (size im).1 ∧ 0 ≤ y < (size im).2) →
  getpixel im x y = None.
Proof.
  intros (_ & _ & Hl & Hr) Hout. unfold getpixel.
  destruct ((0 <=? x) && (0 <=? y)) eqn:Hpos; [|done].
  destruct (rows im !! Z.to_nat y) as [r|] eqn:Hrow; simpl; [|done].
  apply lookup_ge_None.
  rewrite Forall_forall in Hr.
  rewrite (Hr r (list_elem_of_lookup_2 _ _ _ Hrow)).
  apply lookup_lt_Some in Hrow. lia.
Qed.

Lemma getpixel_new {A} (n m : Z) (c : A) x y :
  0 ≤ x < n → 0 ≤ y < m → getpixel (Image_new (n, m) c) x y = Some c.
Proof.
  intros Hx Hy. unfold getpixel, Image_new. simpl.
  replace ((0 <=? x) && (0 <=? y)) with true by lia.
  rewrite (lookup_replicate_2 _ _ (Z.to_nat y)) by lia. simpl.
  apply lookup_replicate_2. lia.
Qed.

Lemma getpixel_paste {A} (dst src : Image A) (pos : Z * Z) x y :
  getpixel (Image_paste dst src pos) x y
  = (λ p, default p (getpixel src (x - pos.1) (y - pos.2))) <$> getpixel dst x y.
Proof.
  unfold getpixel at 1 3. unfold Image_paste. cbn [rows].
  destruct ((0 <=? x) && (0 <=? y)) eqn:Hpos; [|done].
  rewrite list_lookup_imap.
  destruct (rows dst !! Z.to_nat y) as [r|]; simpl; [|done].
  rewrite list_lookup_imap. rewrite !Z2Nat.id by lia. done.
Qed.

Section padding.
Context {A : Type} `{Pixel A}.
Variable image : Image A.
Hypothesis Hwf : well_formed image = true.

Let new_size := Z.max (size image).1 (size image).2.
Let x0 := (new_size - (size image).1) `div` 2.
Let y0 := (new_size - (size image).2) `div` 2.

Lemma pad_size : size (pad_image_square_center image) = (new_size, new_size).
Proof. reflexivity. Qed.

Lemma pad_offsets :
  0 ≤ x0 ∧ x0 + (size image).1 ≤ new_size
  ∧ 0 ≤ y0 ∧ y0 + (size image).2 ≤ new_size.
Proof.
  pose proof (well_formed_shaped _ Hwf) as (Hw & Hh & _).
  subst x0 y0 new_size. repeat split.
  - apply Z.div_pos; lia.
  - pose proof (Z.mul_div_le (Z.max (size image).1 (size image).2 - (size image).1) 2).
    lia.
  - apply Z.div_pos; lia.
  - pose proof (Z.mul_div_le (Z.max (size image).1 (size image).2 - (size image).2) 2).
    lia.
Qed.

Lemma pad_getpixel x y :
  0 ≤ x < new_size → 0 ≤ y < new_size →
  getpixel (pad_image_square_center image) x y
  = Some (default white (getpixel image (x - x0) (y - y0))).
Proof.
  intros Hx Hy. unfold pad_image_square_center.
  rewrite getpixel_paste. fold new_size.
  rewrite getpixel_new by done. reflexivity.
Qed.

Lemma pad_shaped : shaped (pad_image_square_center image).
Proof.
  pose proof (well_formed_shaped _ Hwf) as (Hw & Hh & _).
  unfold shaped, pad_image_square_center, Image_paste, Image_new.
  cbn [size rows fst snd]. fold new_size.
  split; [lia|]. split; [lia|]. split.
  - by rewrite length_imap, length_replicate.
  - apply Forall_lookup. intros i r. rewrite list_lookup_imap.
    intros Hr. apply fmap_Some in Hr as (r0 & Hr0 & ->).
    apply lookup_replicate in Hr0 as [-> _].
    by rewrite length_imap, length_replicate.
Qed.

Lemma pad_valid :
  Forall (Forall (λ p, valid_px p = true)) (rows (pad_image_square_center image)).
Proof.
  pose proof (well_formed_valid _ Hwf) as Hv.
  unfold pad_image_square_center, Image_paste, Image_new. cbn [size rows fst snd].
  apply Forall_lookup. intros i r. rewrite list_lookup_imap.
  intros Hr. apply fmap_Some in Hr as (r0 & Hr0 & ->).
  apply lookup_replicate in Hr0 as [-> _].
  apply Forall_lookup. intros j p. rewrite list_lookup_imap.
  intros Hp. apply fmap_Some in Hp as (p0 & Hp0 & ->).
  apply lookup_replicate in Hp0 as [-> _].
  destruct (getpixel image _ _) as [q|] eqn:Hq; simpl.
  - apply getpixel_elem in Hq as (r & Hr & Hqr).
    rewrite Forall_forall in Hv. specialize (Hv r Hr).
    rewrite Forall_forall in Hv. by apply Hv.
  - apply white_valid.
Qed.

Lemma pad_well_formed : well_formed (pad_image_square_center image) = true.
Proof. apply well_formed_intro; [apply pad_shaped | apply pad_valid]. Qed.
End padding.

(** C2: padding a decoded image gives a square canvas whose side is the
    larger of width and height; the original sits at the floor-divided
    offsets and every other pixel is white; a 10 by 4 image gives a 10 by 10
    canvas with the content 3 rows down. *)
Theorem pad_image_square_center_spec {A} `{Pixel A} (image : Image A) :
  well_formed image = true →
  let new_size := Z.max (size image).1 (size image).2 in
  let x0 := (new_size - (size image).1) `div` 2 in
  let y0 := (new_size - (size image).2) `div` 2 in
  size (pad_image_square_center image) = (new_size, new_size)
  ∧ shaped (pad_image_square_center image)
  ∧ (∀ x y, 0 ≤ x < (size image).1 → 0 ≤ y < (size image).2 →
       getpixel (pad_image_square_center image) (x0 + x) (y0 + y)
       = getpixel image x y)
  ∧ (∀ x y, 0 ≤ x < new_size → 0 ≤ y < new_size →
       ¬ (x0 ≤ x < x0 + (size image).1 ∧ y0 ≤ y < y0 + (size image).2) →
       getpixel (pad_image_square_center image) x y = Some white)
  ∧ (size image = (10, 4) →
       size (pad_image_square_center image) = (10, 10) ∧ x0 = 0 ∧ y0 = 3).
Proof.
  intros Hwf new_size x0 y0.
  pose proof (pad_offsets image Hwf) as (Hx0 & Hx1 & Hy0 & Hy1).
  fold new_size x0 y0 in Hx0, Hx1, Hy0, Hy1.
  pose proof (well_formed_shaped _ Hwf) as Hsh.
  split; [reflexivity|]. split; [by apply pad_shaped|]. split; [|split].
  - intros x y Hx Hy. rewrite pad_getpixel by (try done; fold new_size; lia).
    fold new_size x0 y0.
    replace (x0 + x - x0) with x by lia. replace (y0 + y - y0) with y by lia.
    destruct (getpixel_inside image x y Hsh Hx Hy) as [p ->]. done.
  - intros x y Hx Hy Hout. rewrite pad_getpixel by done.
    fold new_size x0 y0.
    rewrite getpixel_outside; [done | done | lia].
  - intros Hsz. subst x0 y0 new_size. rewrite pad_size. rewrite Hsz. simpl.
    done.
Qed.

Lemma pad_image_square_center_spec_witness :
  let new_size := Z.max (size wide).1 (size wide).2 in
  let x0 := (new_size - (size wide).1) `div` 2 in
  let y0 := (new_size - (size wide).2) `div` 2 in
  size (pad_image_square_center wide) = (new_size, new_size)
  ∧ shaped (pad_image_square_center wide)
  ∧ (∀ x y, 0 ≤ x < (size wide).1 → 0 ≤ y < (size wide).2 →
       getpixel (pad_image_square_center wide) (x0 + x) (y0 + y)
       = getpixel wide x y)
  ∧ (∀ x y, 0 ≤ x < new_size → 0 ≤ y < new_size →
       ¬ (x0 ≤ x < x0 + (size wide).1 ∧ y0 ≤ y < y0 + (size wide).2) →
       getpixel (pad_image_square_center wide) x y = Some white)
  ∧ (size wide = (10, 4) →
       size (pad_image_square_center wide) = (10, 10) ∧ x0 = 0 ∧ y0 = 3).
Proof. apply (pad_image_square_center_spec wide). reflexivity. Defined.

(** ** Resizing *)



Section pipeline.
Context {memory : Memory}.
Local Set Default Proof Using "Type".


(** ** Conversion to an array *)

Lemma chunks_concat {A} (rs : list (list A)) (m : nat) :
  Forall (λ r, length r = m) rs →
  chunks (length rs) m (concat rs) = rs ∧ length (concat rs) = (length rs * m)%nat.
Proof.
  induction 1 as [|r rs Hr Hrs [IH1 IH2]]; simpl; [done|].
  rewrite take_app_length', drop_app_length' by done.
  rewrite IH1, length_app, IH2, Hr. done.
Qed.

Lemma np_reshape_getdata {A} (im : Image A) :
  shaped im → np_reshape (Image_getdata im) ((size im).2, (size im).1) = Ok (rows im).
Proof.
  intros (Hw & Hh & Hl & Hr). unfold np_reshape, Image_getdata.
  destruct (chunks_concat _ _ Hr) as [Hch Hlen].
  rewrite Hlen, Hl, Nat2Z.inj_mul, !Z2Nat.id by lia.
  rewrite Z.eqb_refl.
  replace ((0 <=? (size im).2) && (0 <=? (size im).1)) with true by lia.
  simpl. by rewrite <- Hl, Hch.
Qed.



(** ** The pipeline *)

Lemma preprocess_image_pipeline {A} `{Pixel A} (image : Image A) final_res
    padding plot w :
  (preprocess_image image final_res padding plot w).1
  = pipeline image final_res padding
  ∧ (plot = false → (preprocess_image image final_res padding plot w).2 = w).
Proof.
  unfold preprocess_image, pipeline, binarize, mbind, M_bind, result_bind, lift.
  destruct (threshold_of (Image_convert_L image)) as [t|e]; [|done].
  destruct (Image_point _ _) as [bw|e]; [|done].
  destruct padding.
  - destruct (Image_resize _ _) as [out|e]; [|done].
    unfold plt_show, mret, M_ret;
      destruct plot; cbn -[np_reshape];
      destruct (np_reshape (Image_getdata out) (final_res, final_res)); done.
  - destruct (Image_resize _ _) as [out|e]; [|done].
    unfold plt_show, mret, M_ret;
      destruct plot; cbn -[np_reshape];
      destruct (np_reshape (Image_getdata out) (final_res, final_res)); done.
Qed.

Lemma convert_well_formed {A} `{Pixel A} (image : Image A) :
  well_formed image = true → well_formed (Image_convert_L image) = true.
Proof.
  intros Hwf. pose proof (well_formed_shaped _ Hwf) as (Hw & Hh & Hl & Hr).
  pose proof (well_formed_valid _ Hwf) as Hv.
  apply well_formed_intro.
  - unfold shaped, Image_convert_L. cbn [size rows].
    rewrite length_map. repeat split; try done.
    apply Forall_forall. intros r Hin.
    apply list_elem_of_In, in_map_iff in Hin as (r0 & <- & Hr0).
    rewrite length_map. rewrite Forall_forall in Hr.
    by apply Hr, list_elem_of_In.
  - unfold Image_convert_L. cbn [rows].
    apply Forall_forall. intros r Hin.
    apply list_elem_of_In, in_map_iff in Hin as (r0 & <- & Hr0).
    apply list_elem_of_In in Hr0.
    rewrite Forall_forall in Hv. specialize (Hv r0 Hr0).
    apply Forall_forall. intros v Hin.
    apply list_elem_of_In, in_map_iff in Hin as (p & <- & Hp).
    apply list_elem_of_In in Hp.
    rewrite Forall_forall in Hv. specialize (Hv p Hp).
    apply to_L_range in Hv. cbn. unfold byteb. lia.
Qed.

Lemma threshold_map_well_formed (im : Image Z) t :
  well_formed im = true →
  well_formed (mkImage (size im) (map (map (threshold_pixel t)) (rows im))) = true.
Proof.
  intros Hwf. pose proof (well_formed_shaped _ Hwf) as (Hw & Hh & Hl & Hr).
  apply well_formed_intro.
  - unfold shaped. cbn [size rows]. rewrite length_map. repeat split; try done.
    apply Forall_forall. intros r Hin.
    apply list_elem_of_In, in_map_iff in Hin as (r0 & <- & Hr0).
    rewrite length_map. rewrite Forall_forall in Hr.
    by apply Hr, list_elem_of_In.
  - pose proof (two_level_map t (rows im) (size im)) as Htwo.
    eapply Forall_impl; [exact Htwo|]. simpl. intros r Hr'.
    eapply Forall_impl; [exact Hr'|]. simpl. unfold byteb. lia.
Qed.





(** ** The shape and range of the result *)


(** ** Determinism *)

(** C9: without padding and without plotting, the array returned for an
    image does not depend on the state of the world, and the call leaves the
    world as it found it; so a second run on the same image returns the very
    same floats as the first. *)
Theorem preprocess_image_deterministic {A} `{Pixel A} (image : Image A)
    (final_res : Z) (w1 w2 : World) :
  (preprocess_image image final_res false false w1).1
  = (preprocess_image image final_res false false w2).1
  ∧ (preprocess_image image final_res false false w1).2 = w1
  ∧ (let first := preprocess_image image final_res false false w1 in
     let second := preprocess_image image final_res false false first.2 in
     second.1 = first.1).
Proof.
  destruct (preprocess_image_pipeline image final_res false false w1) as [H1 Hw1].
  destruct (preprocess_image_pipeline image final_res false false w2) as [H2 _].
  split; [by rewrite H1, H2|]. split; [by apply Hw1|].
  cbn zeta. by rewrite Hw1.
Qed.

(** ** The batch driver *)


Lemma np_empty_inv j n m dataset :
  np_empty j (n, m) = Ok dataset → can_hold n m = true ∧ dataset = blank j n m.
Proof.
  unfold can_hold, np_empty, blank.
  destruct ((n <? 0) || (m <? 0)) eqn:Hneg; [done|].
  destruct (NPY_MAX_INTP <? 8 * nonzero n * nonzero m) eqn:Hsize; [done|].
  destruct ((n * m =? 0) || enough_memory (n * m)) eqn:Hmem; [|done].
  intros [= <-]. split; [|done].
  apply orb_false_iff in Hneg as [Hn Hm].
  rewrite !andb_true_iff. repeat split; lia.
Qed.

Lemma np_empty_raise j n m :
  can_hold n m = false → ∃ e, np_empty j (n, m) = Raise e.
Proof.
  intros Hno. destruct (np_empty j (n, m)) as [dataset|e] eqn:Hemp; [|by exists e].
  apply np_empty_inv in Hemp as [Hyes _]. congruence.
Qed.

Lemma batch_preprocess_unfold files_list dest_file final_res padding w :
  batch_preprocess files_list dest_file final_res padding w
  = match np_empty (junk w)
            (Z.of_nat (length files_list), final_res * final_res) with
    | Ok dataset =>
        match batch_loop files_list 0 (Z.of_nat (length files_list)) final_res
                padding dataset w with
        | (Ok dataset, w') => finish dest_file dataset w'
        | (Raise e, w') => (Raise e, w')
        end
    | Raise e => (Raise e, w)
    end.
Proof.
  unfold batch_preprocess, mbind, M_bind.
  by destruct (np_empty _ _).
Qed.


(** Opening and processing a file reads the file system and changes
    nothing. *)
Lemma load_and_process_frame file final_res padding w w' :
  fs w' = fs w →
  load_and_process file final_res padding w'
  = ((load_and_process file final_res padding w).1, w').
Proof.
  intros Hfs. unfold load_and_process, mbind, M_bind, Image_open. rewrite Hfs.
  destruct (fs w !! path_of file) as [[|[A HA im]| |]|]; try done.
  cbn [fst].
  destruct (preprocess_image_pipeline im final_res padding false w) as [-> _].
  destruct (preprocess_image_pipeline im final_res padding false w') as [H1 H2].
  specialize (H2 eq_refl).
  destruct (preprocess_image im final_res padding false w') as [r w2].
  simpl in *. by subst.
Qed.

Lemma chunks_flat {A} (n m : nat) (a : list A) :
  length a = (n * m)%nat → length (concat (chunks n m a)) = (n * m)%nat.
Proof.
  revert a. induction n as [|n IH]; intros a Hlen; simpl; [done|].
  rewrite length_app, length_take, IH; [lia|].
  rewrite length_drop. lia.
Qed.

Lemma pipeline_flat {A} `{Pixel A} (image : Image A) final_res padding arr :
  pipeline image final_res padding = Ok arr →
  Z.of_nat (length (flat arr)) = final_res * final_res.
Proof.
  unfold pipeline, mbind, result_bind.
  destruct (binarize _) as [bw|]; [|done].
  destruct (Image_resize _ _) as [out|]; [|done].
  unfold np_reshape.
  destruct (_ && _) eqn:Hshape; [|done]. intros [= <-].
  unfold flat, np_true_divide. cbn [data].
  apply andb_true_iff in Hshape as [Hpos Hlen].
  apply andb_true_iff in Hpos as [Hpos _].
  set (a := Image_getdata out) in *.
  assert (Hflat : length (concat (chunks (Z.to_nat final_res) (Z.to_nat final_res) a))
                  = (Z.to_nat final_res * Z.to_nat final_res)%nat).
  { apply chunks_flat. apply Nat2Z.inj. rewrite Nat2Z.inj_mul, !Z2Nat.id by lia. lia. }
  rewrite <- (Z2Nat.id final_res) at 3 4 by lia. rewrite <- Nat2Z.inj_mul, <- Hflat.
  f_equal. generalize (chunks (Z.to_nat final_res) (Z.to_nat final_res) a).
  intros rs. induction rs as [|r rs IH]; simpl; [done|].
  rewrite !length_app, length_map, IH. done.
Qed.

Lemma load_and_process_flat file final_res padding w arr :
  (load_and_process file final_res padding w).1 = Ok arr →
  Z.of_nat (length (flat arr)) = final_res * final_res.
Proof.
  unfold load_and_process, mbind, M_bind, Image_open.
  destruct (fs w !! path_of file) as [[|[A HA im]| |]|]; try done.
  destruct (preprocess_image_pipeline im final_res padding false w) as [-> _].
  apply pipeline_flat.
Qed.


Lemma printed_nil w : printed w [] = w.
Proof. destruct w. unfold printed. simpl. by rewrite app_nil_r. Qed.

Lemma printed_printed w l1 l2 : printed (printed w l1) l2 = printed w (l1 ++ l2).
Proof. unfold printed. simpl. by rewrite app_assoc. Qed.

(** One turn of the loop. *)
Lemma batch_loop_cons file rest row num_files final_res padding dataset w :
  batch_loop (file :: rest) row num_files final_res padding dataset w
  = match load_and_process file final_res padding
            (printed w [progress row num_files]) with
    | (Ok im, w') =>
        match np_setitem dataset row im with
        | Ok dataset' =>
            batch_loop rest (S row) num_files final_res padding dataset' w'
        | Raise e => (Raise e, w')
        end
    | (Raise e, w') => (Raise e, w')
    end.
Proof.
  cbn [batch_loop]. unfold load_and_process, mbind, M_bind, print, Image_open, lift.
  fold (printed w [progress row num_files]). cbn [fs printed].
  destruct (fs w !! path_of file) as [[|[A HA im]| |]|]; try reflexivity.
Qed.

Section loop.
Variables (num_files final_res : Z) (padding : bool) (w0 : World).

Let processed (file : string) (arr : ndarray) : Prop :=
  (load_and_process file final_res padding w0).1 = Ok arr.

Let lines (row n : nat) : list string :=
  map (λ i, progress i num_files) (seq row n).

Lemma batch_loop_step file rest arr row dataset w :
  fs w = fs w0 → processed file arr →
  shape dataset = (num_files, final_res * final_res) →
  Z.of_nat (length (data dataset)) = num_files →
  (row < length (data dataset))%nat →
  batch_loop (file :: rest) row num_files final_res padding dataset w
  = batch_loop rest (S row) num_files final_res padding
      (mkArray (num_files, final_res * final_res)
         (<[row := flat arr]> (data dataset)))
      (printed w [progress row num_files]).
Proof.
  intros Hfs Harr Hshape Hlen Hrow. rewrite batch_loop_cons.
  rewrite (load_and_process_frame _ _ _ w0) by done.
  unfold processed in Harr. rewrite Harr.
  unfold np_setitem. fold (flat arr).
  rewrite (load_and_process_flat _ _ _ _ _ Harr), Hshape. cbn [fst snd].
  rewrite Z.eqb_refl. replace (Z.of_nat row <? num_files) with true by lia.
  reflexivity.
Qed.

Lemma batch_loop_ok files arrs : ∀ row dataset w,
  fs w = fs w0 → Forall2 processed files arrs →
  shape dataset = (num_files, final_res * final_res) →
  Z.of_nat (length (data dataset)) = num_files →
  (row + length files ≤ length (data dataset))%nat →
  batch_loop files row num_files final_res padding dataset w
  = (Ok (mkArray (num_files, final_res * final_res)
           (take row (data dataset) ++ map flat arrs
            ++ drop (row + length files) (data dataset))),
     printed w (lines row (length files))).
Proof.
  intros row dataset w Hfs Hall. revert row dataset w Hfs.
  induction Hall as [|file arr rest arrs Harr Hall IH];
    intros row dataset w Hfs Hshape Hlen Hrow.
  - simpl. rewrite Nat.add_0_r, take_drop. unfold lines. simpl.
    rewrite printed_nil. destruct dataset as [shp dat]. simpl in *.
    by rewrite Hshape.
  - simpl in Hrow. rewrite (batch_loop_step _ _ arr) by (try done; lia).
    rewrite IH; [|done|done|by cbn [data]; rewrite length_insert
              |cbn [data]; rewrite length_insert; lia].
    cbn [data]. rewrite printed_printed. f_equal.
    rewrite (take_S_r _ _ (flat arr)) by (apply list_lookup_insert_eq; lia).
    rewrite take_insert_ge by lia.
    rewrite drop_insert_lt by (simpl; lia).
    rewrite <- app_assoc. simpl. by rewrite Nat.add_succ_r.
Qed.

Lemma batch_loop_fail good arrs bad rest e : ∀ row dataset w,
  fs w = fs w0 → Forall2 processed good arrs →
  (load_and_process bad final_res padding w0).1 = Raise e →
  shape dataset = (num_files, final_res * final_res) →
  Z.of_nat (length (data dataset)) = num_files →
  (row + length good < length (data dataset))%nat →
  batch_loop (good ++ bad :: rest) row num_files final_res padding dataset w
  = (Raise e, printed w (lines row (S (length good)))).
Proof.
  intros row dataset w Hfs Hall Hbad. revert row dataset w Hfs.
  induction Hall as [|file arr good arrs Harr Hall IH];
    intros row dataset w Hfs Hshape Hlen Hrow.
  - simpl app. rewrite batch_loop_cons.
    rewrite (load_and_process_frame _ _ _ w0) by done. by rewrite Hbad.
  - simpl in Hrow. simpl app.
    rewrite (batch_loop_step _ _ arr) by (try done; lia).
    rewrite IH; [|done|done|by cbn [data]; rewrite length_insert
              |cbn [data]; rewrite length_insert; lia].
    by rewrite printed_printed.
Qed.
End loop.

(** ** Saving *)




Lemma os_path_exists_PATH_SAVE w :
  os_path_exists PATH_SAVE w = (Ok (is_dir (fs w) ["data"; "clean"]), w).
Proof. reflexivity. Qed.




(** ** The dataset *)



(** ** The save directory *)


(** ** Failing fast *)

Lemma processes_Forall2 w final_res padding (files : list string) :
  forallb (processes w final_res padding) files = true →
  ∃ arrs, Forall2 (λ file arr,
            (load_and_process file final_res padding w).1 = Ok arr) files arrs.
Proof.
  intros Hall%forallb_Forall_true.
  induction Hall as [|file files Hfile Hall [arrs IH]]; [by exists []|].
  unfold processes in Hfile.
  destruct ((load_and_process file final_res padding w).1) as [arr|] eqn:Harr;
    [|done].
  exists (arr :: arrs). by constructor.
Qed.

(** C8: when the files before [bad] are processed and [bad] raises [e] while
    being opened or processed, [batch_preprocess] raises [e]; progress was
    printed for the files up to [bad] and for no later one, and the file
    system, hence whatever was stored at the destination, is as before.
    (Should NumPy already refuse to create the dataset, no file is opened:
    that error is raised, nothing is printed and nothing is stored.) *)
Theorem batch_preprocess_fails_fast (good : list string) (bad : string)
    (rest : list string) (dest_file : string) (final_res : Z) (padding : bool)
    (w : World) (e : exn) :
  forallb (processes w final_res padding) good = true →
  (load_and_process bad final_res padding w).1 = Raise e →
  let files_list := good ++ bad :: rest in
  let run := batch_preprocess files_list dest_file final_res padding w in
  fs run.2 = fs w
  ∧ fs run.2 !! path_of (npy_name dest_file) = fs w !! path_of (npy_name dest_file)
  ∧ figures run.2 = figures w
  ∧ match np_empty (junk w)
            (Z.of_nat (length files_list), final_res * final_res) with
    | Ok _ =>
        run.1 = Raise e
        ∧ stdout run.2
          = stdout w ++ map (λ i, progress i (Z.of_nat (length files_list)))
                            (seq 0 (S (length good)))
    | Raise e0 => run.1 = Raise e0 ∧ stdout run.2 = stdout w
    end.
Proof.
  intros [arrs Harrs]%processes_Forall2 Hbad files_list run.
  subst run. rewrite batch_preprocess_unfold.
  destruct (np_empty _ _) as [dataset|e0] eqn:Hemp; [|done].
  apply np_empty_inv in Hemp as [_ ->]. subst files_list.
  rewrite (batch_loop_fail _ _ _ w good arrs bad rest e); try done.
  - cbn [blank data fst snd]. by rewrite length_replicate, Nat2Z.id.
  - cbn [blank data fst snd]. rewrite length_replicate, Nat2Z.id.
    rewrite length_app. simpl. lia.
Qed.

End pipeline.

(** * Further properties *)

(** ** Images are determined by their pixels *)

Lemma getpixel_lookup {A} (im : Image A) (i j : nat) :
  getpixel im (Z.of_nat j) (Z.of_nat i) = rows im !! i ≫= λ r, r !! j.
Proof.
  unfold getpixel. rewrite !(proj2 (Z.leb_le 0 _)) by lia. cbn [andb].
  by rewrite !Nat2Z.id.
Qed.

Lemma image_ext {A} (a b : Image A) :
  shaped a → shaped b → size a = size b →
  (∀ x y, 0 ≤ x < (size a).1 → 0 ≤ y < (size a).2 →
          getpixel a x y = getpixel b x y) →
  a = b.
Proof.
  intros (Hwa & Hha & Hla & Hra) (Hwb & Hhb & Hlb & Hrb) Hsize Hpx.
  destruct a as [sa ra], b as [sb rb]. simpl in *. subst sb. f_equal.
  apply list_eq. intros i.
  destruct (decide (i < length ra)%nat) as [Hi|Hi].
  - destruct (lookup_lt_is_Some_2 ra i Hi) as [r1 H1].
    destruct (lookup_lt_is_Some_2 rb i) as [r2 H2]; [lia|].
    rewrite H1, H2. f_equal. apply list_eq. intros j.
    rewrite Forall_forall in Hra, Hrb.
    pose proof (Hra r1 (list_elem_of_lookup_2 _ _ _ H1)) as Hl1.
    pose proof (Hrb r2 (list_elem_of_lookup_2 _ _ _ H2)) as Hl2.
    destruct (decide (j < length r1)%nat) as [Hj|Hj].
    + specialize (Hpx (Z.of_nat j) (Z.of_nat i)).
      rewrite !getpixel_lookup in Hpx. simpl in Hpx.
      rewrite H1, H2 in Hpx. simpl in Hpx. apply Hpx; lia.
    + rewrite !lookup_ge_None_2; [done | lia | lia].
  - rewrite !lookup_ge_None_2; [done | lia | lia].
Qed.

(** ** Padding an image that is already square *)

Lemma pad_square_pixels {A} `{Pixel A} (image : Image A) :
  well_formed image = true → (size image).1 = (size image).2 →
  size (pad_image_square_center image) = size image
  ∧ ∀ x y, 0 ≤ x < (size image).1 → 0 ≤ y < (size image).2 →
           getpixel (pad_image_square_center image) x y = getpixel image x y.
Proof.
  intros Hwf Hsq. pose proof (well_formed_shaped _ Hwf) as Hsh.
  split.
  { rewrite pad_size. destruct (size image) as [w h]. simpl in *. subst.
    by rewrite Z.max_id. }
  intros x y Hx Hy.
  rewrite pad_getpixel by (rewrite <- Hsq, Z.max_id; lia).
  rewrite <- Hsq, Z.max_id, Z.sub_diag. change (0 `div` 2) with 0.
  rewrite !Z.sub_0_r.
  destruct (getpixel_inside image x y Hsh) as [p ->]; [lia | lia | done].
Qed.

Lemma pad_square_id {A} `{Pixel A} (image : Image A) :
  well_formed image = true → (size image).1 = (size image).2 →
  pad_image_square_center image = image.
Proof.
  intros Hwf Hsq. destruct (pad_square_pixels image Hwf Hsq) as [Hsize Hpx].
  apply image_ext; [by apply pad_shaped | by apply well_formed_shaped | done |].
  intros x y Hx Hy. rewrite Hsize in Hx, Hy. by apply Hpx.
Qed.

(** X1: an image whose width equals its height is returned unchanged by
    [pad_image_square_center]. *)
Theorem pad_square_unchanged {A} `{Pixel A} (image : Image A) :
  well_formed image = true → (size image).1 = (size image).2 →
  pad_image_square_center image = image.
Proof.
  intros Hwf Hsq. destruct (pad_square_pixels image Hwf Hsq) as [Hsize Hpx].
  apply image_ext.
  - by apply pad_shaped.
  - by apply well_formed_shaped.
  - exact Hsize.
  - intros x y Hx Hy. rewrite Hsize in Hx, Hy. by apply Hpx.
Qed.

Lemma pad_square_unchanged_witness :
  pad_image_square_center black_white = black_white.
Proof. apply (pad_square_unchanged black_white); reflexivity. Defined.

(** X2: padding is idempotent: padding a padded image changes nothing. *)
Theorem pad_idempotent {A} `{Pixel A} (image : Image A) :
  well_formed image = true →
  pad_image_square_center (pad_image_square_center image)
  = pad_image_square_center image.
Proof.
  intros Hwf. apply pad_square_id; [by apply pad_well_formed|].
  by rewrite pad_size.
Qed.

Lemma pad_idempotent_witness :
  pad_image_square_center (pad_image_square_center wide)
  = pad_image_square_center wide.
Proof. apply (pad_idempotent wide). reflexivity. Defined.

(** X3: padding a grayscale image of zeros and 255s gives an image of zeros
    and 255s: the border it adds is 255. *)
Theorem pad_keeps_two_levels (image : Image Z) :
  well_formed image = true → two_level image →
  two_level (pad_image_square_center image).
Proof.
  intros Hwf Htwo. unfold two_level.
  apply Forall_lookup. intros i r Hr. apply Forall_lookup. intros j p Hp.
  assert (Hpx : getpixel (pad_image_square_center image) (Z.of_nat j) (Z.of_nat i)
                = Some p).
  { rewrite getpixel_lookup, Hr. exact Hp. }
  pose proof (pad_shaped image Hwf) as (_ & _ & Hl & Hrs).
  rewrite pad_size in Hl, Hrs. cbn [fst snd] in Hl, Hrs.
  rewrite Forall_forall in Hrs.
  pose proof (Hrs r (list_elem_of_lookup_2 _ _ _ Hr)) as Hlr.
  apply lookup_lt_Some in Hr, Hp.
  rewrite pad_getpixel in Hpx by lia.
  destruct (getpixel image _ _) as [q|] eqn:Hq; simpl in Hpx.
  - injection Hpx as <-. apply getpixel_elem in Hq as (r0 & Hr0 & Hq).
    unfold two_level in Htwo. rewrite Forall_forall in Htwo.
    specialize (Htwo r0 Hr0). rewrite Forall_forall in Htwo. by apply Htwo.
  - injection Hpx as <-. by right.
Qed.

Lemma pad_keeps_two_levels_witness :
  two_level (pad_image_square_center wide).
Proof.
  apply (pad_keeps_two_levels wide); [reflexivity|].
  unfold two_level, wide. simpl. repeat constructor; lia.
Defined.

(** ** The stages of the pipeline *)

Section stages.
Context {memory : Memory}.
Local Set Default Proof Using "Type".

Lemma float_levels :
  (float_of_int 0 / float_of_int 255 = 0)%float
  ∧ (float_of_int 255 / float_of_int 255 = 1)%float.
Proof. split; vm_compute; reflexivity. Qed.




(** X6: when the image is already [final_res] by [final_res], nothing is
    resampled, whatever the padding flag: the result is 0.0 where the
    luminance is below the threshold and 1.0 elsewhere. *)
Theorem preprocess_image_same_size {A} `{Pixel A} (image : Image A)
    (final_res : Z) (padding plot : bool) (w : World) :
  well_formed image = true → size image = (final_res, final_res) →
  ∃ t, threshold_of (Image_convert_L image) = Ok t
       ∧ (preprocess_image image final_res padding plot w).1
         = Ok (mkArray (final_res, final_res)
                 (map (map (λ p, if to_L p <? t then 0%float else 1%float))
                      (rows image))).
Proof.
  intros Hwf Hsize.
  assert (Hres : 0 < final_res).
  { pose proof (well_formed_shaped _ Hwf) as (Hw & _). rewrite Hsize in Hw. done. }
  destruct (preprocess_image_pipeline image final_res padding plot w) as [-> _].
  pose proof (convert_well_formed _ Hwf) as Hgray.
  destruct (binarize_spec _ Hgray) as (m & Ht & _ & _ & _ & Hbw).
  pose proof (threshold_map_well_formed _ ((9 * m) `div` 10) Hgray) as Hwf_bw.
  exists ((9 * m) `div` 10). split; [exact Ht|].
  unfold pipeline. rewrite Hbw. cbn [mbind result_bind].
  set (bw := mkImage (size (Image_convert_L image))
                     (map (map (threshold_pixel ((9 * m) `div` 10)))
                          (rows (Image_convert_L image)))) in *.
  assert (Hbw_size : size bw = (final_res, final_res)) by (by subst bw).
  assert (Hsq : (if padding then pad_image_square_center bw else bw) = bw).
  { destruct padding; [|done]. apply pad_square_id; [done|]. by rewrite Hbw_size. }
  rewrite Hsq. unfold Image_resize. rewrite Hbw_size. cbn [fst snd].
  rewrite Z.eqb_refl. cbn [andb mbind result_bind].
  pose proof (np_reshape_getdata bw (well_formed_shaped _ Hwf_bw)) as Hre.
  rewrite Hbw_size in Hre. cbn [fst snd] in Hre.
  unfold Image_getdata in *. cbn [rows] in Hre |- *. rewrite Hre.
  cbn [mbind result_bind mret result_ret]. unfold np_true_divide. do 2 f_equal.
  subst bw. cbn [rows Image_convert_L]. rewrite !map_map.
  apply map_ext. intros r. rewrite !map_map. apply map_ext. intros p.
  destruct float_levels as [H0 H1]. unfold threshold_pixel.
  by destruct (to_L p <? _).
Qed.

Lemma convert_L_gray (image : Image Z) :
  Image_convert_L image = image.
Proof.
  destruct image as [s rs]. unfold Image_convert_L. cbn. f_equal.
  induction rs as [|r rs IH]; [done|]. cbn. f_equal; [|exact IH].
  induction r as [|v r IHr]; [done|]. cbn. by f_equal.
Qed.

(** X7: converting the image to grayscale beforehand does not change the
    result. *)
Theorem preprocess_image_of_gray {A} `{Pixel A} (image : Image A)
    (final_res : Z) (padding plot : bool) (w : World) :
  (preprocess_image (Image_convert_L image) final_res padding plot w).1
  = (preprocess_image image final_res padding plot w).1.
Proof.
  destruct (preprocess_image_pipeline image final_res padding plot w) as [-> _].
  destruct (preprocess_image_pipeline (Image_convert_L image) final_res padding
              plot w) as [-> _].
  unfold pipeline. by rewrite convert_L_gray.
Qed.

End stages.

(** ** Ties between most frequent intensities *)

Lemma insert_unique_sorted v l :
  StronglySorted Z.lt l → StronglySorted Z.lt (insert_unique v l).
Proof.
  induction 1 as [|x l Hs IH Hall]; simpl.
  - repeat constructor.
  - destruct (v <? x) eqn:Hlt.
    + constructor; [by constructor|]. constructor; [lia|].
      eapply Forall_impl; [exact Hall|]. simpl. lia.
    + destruct (v =? x) eqn:Heq; [by constructor|].
      constructor; [exact IH|]. apply Forall_forall. intros y Hy.
      apply insert_unique_elem in Hy as [->|Hy]; [lia|].
      rewrite Forall_forall in Hall. by apply Hall.
Qed.

Lemma np_unique_sorted a : StronglySorted Z.lt (np_unique a).
Proof.
  unfold np_unique. induction a as [|v a IH]; simpl; [constructor|].
  by apply insert_unique_sorted.
Qed.

(** A value that replaced the initial one did so with a strictly larger
    count. *)
Lemma mode_walk_strict a scores m0 c0 :
  let '(m, c) := foldl (mode_step a) (m0, c0) scores in
  (m, c) = (m0, c0) ∨ (m ∈ scores ∧ count_score a m = c ∧ c0 < c).
Proof.
  revert m0 c0. induction scores as [|s scores IH]; intros m0 c0; simpl.
  - by left.
  - specialize (IH (if c0 <? count_score a s then s else m0)
                   (Z.max (count_score a s) c0)).
    destruct (foldl _ _ scores) as [m c].
    destruct IH as [Heq | (Hin & Hcnt & Hlt)].
    + injection Heq as -> ->. destruct (c0 <? count_score a s) eqn:Hlt.
      * right. split; [set_solver|]. lia.
      * left. f_equal. lia.
    + right. split; [set_solver|]. lia.
Qed.

(** Over increasing scores, the value kept is the first to reach the kept
    count. *)
Lemma mode_walk_first a scores : ∀ m0 c0,
  StronglySorted Z.lt scores →
  let '(m, c) := foldl (mode_step a) (m0, c0) scores in
  ∀ s, s ∈ scores → count_score a s = c → (m, c) = (m0, c0) ∨ m ≤ s.
Proof.
  induction scores as [|x scores IH]; intros m0 c0 Hsorted; simpl.
  - intros s Hs. by apply elem_of_nil in Hs.
  - apply StronglySorted_inv in Hsorted as [Hsorted Hall].
    set (m1 := if c0 <? count_score a x then x else m0).
    set (c1 := Z.max (count_score a x) c0).
    specialize (IH m1 c1 Hsorted).
    pose proof (mode_walk_strict a scores m1 c1) as Hstrict.
    destruct (foldl _ _ scores) as [m c].
    assert (Hkeep : (m, c) = (m1, c1) → (m, c) = (m0, c0) ∨ m ≤ x).
    { intros [= -> ->]. subst m1 c1.
      destruct (c0 <? count_score a x) eqn:Hlt; [right; lia|].
      left. f_equal. lia. }
    intros s [->|Hs]%elem_of_cons Hcount.
    + destruct Hstrict as [Heq | (_ & _ & Hlt)]; [by apply Hkeep|].
      subst c1. lia.
    + rewrite Forall_forall in Hall. specialize (Hall s Hs).
      destruct (IH s Hs Hcount) as [Heq | Hle]; [|by right].
      destruct (Hkeep Heq) as [?|?]; [by left | right; lia].
Qed.

Lemma stats_mode_00_smallest (a : list Z) m :
  stats_mode_00 a = Ok m →
  ∀ v, count_score a v = count_score a m → m ≤ v.
Proof.
  destruct (decide (a = [])) as [->|Hne]; [done|].
  destruct (stats_mode_00_spec a Hne) as (m' & Hm' & Hin & Hmax).
  rewrite Hm'. intros [= <-]. intros v Hv.
  assert (Hpos : 0 < count_score a m') by (by apply count_score_elem).
  assert (Hvin : v ∈ np_unique a).
  { apply np_unique_elem, count_score_elem. lia. }
  unfold stats_mode_00, stats_mode in Hm'.
  pose proof (mode_walk_first a (np_unique a) 0 0 (np_unique_sorted a)) as Hfirst.
  pose proof (mode_walk a (np_unique a) 0 0) as Hwalk.
  destruct a as [|x a']; [done|]. set (a := x :: a') in *.
  destruct (foldl _ _ _) as [m c]. simpl in Hm'. injection Hm' as ->.
  destruct Hwalk as (_ & Hall & Hm).
  destruct Hm as [[= -> ->] | [_ Hc]].
  - specialize (Hall v Hvin). lia.
  - destruct (Hfirst v Hvin) as [[= -> ->] | Hle]; [lia | lia | done].
Qed.

(** X8: when several intensities are equally frequent, the threshold is
    derived from the smallest of them: no intensity as frequent as the one
    used lies below it. *)
Theorem threshold_uses_smallest_mode (im : Image Z) :
  well_formed im = true →
  ∃ m, stats_mode_00 (Image_getdata im) = Ok m
       ∧ (∀ v, count_score (Image_getdata im) v = count_score (Image_getdata im) m →
               m ≤ v)
       ∧ threshold_of im = Ok ((9 * m) `div` 10).
Proof.
  intros Hwf. destruct (threshold_of_spec im Hwf) as (m & Hm & _ & _ & _ & Ht).
  exists m. split; [exact Hm|]. split; [|exact Ht].
  by apply stats_mode_00_smallest.
Qed.

Lemma threshold_uses_smallest_mode_witness :
  ∃ m, stats_mode_00 (Image_getdata black_white) = Ok m
       ∧ (∀ v, count_score (Image_getdata black_white) v
               = count_score (Image_getdata black_white) m → m ≤ v)
       ∧ threshold_of black_white = Ok ((9 * m) `div` 10).
Proof. apply (threshold_uses_smallest_mode black_white). reflexivity. Defined.

(** ** What a run of the batch driver changes *)

Section driver.
Context {memory : Memory}.
Local Set Default Proof Using "Type".







(** ** When the driver returns normally *)

Lemma batch_loop_inv num_files final_res padding w0 files : ∀ row dataset w out w',
  fs w = fs w0 →
  batch_loop files row num_files final_res padding dataset w = (Ok out, w') →
  forallb (processes w0 final_res padding) files = true.
Proof.
  induction files as [|file files IH]; intros row dataset w out w' Hfs Hrun;
    [done|].
  rewrite batch_loop_cons in Hrun.
  rewrite (load_and_process_frame _ _ _ w0) in Hrun by done.
  cbn [forallb]. unfold processes at 1.
  destruct ((load_and_process file final_res padding w0).1) as [arr|e]; [|done].
  destruct (np_setitem dataset row arr) as [dataset'|e]; [|done].
  cbn [andb]. eapply IH; [|exact Hrun]. done.
Qed.

Lemma finish_inv dest_file dataset w w' :
  finish dest_file dataset w = (Ok (), w') →
  fs w' !! path_of (npy_name dest_file) = Some (NpyFile dataset).
Proof.
  unfold finish, mbind, M_bind. rewrite os_path_exists_PATH_SAVE.
  unfold os_makedirs, np_save, print, mret, M_ret.
  destruct (is_dir (fs w) ["data"; "clean"]); cbn [negb].
  - destruct (is_dir (fs w) _); [done|].
    destruct (is_dir (fs w) _); [|done].
    intros [= <-]. cbn. by rewrite lookup_insert_eq.
  - destruct (makedirs_rev _ _) as [f|e]; [|done]. cbn [fs set_fs].
    destruct (is_dir f _); [done|].
    destruct (is_dir f _); [|done].
    intros [= <-]. cbn. by rewrite lookup_insert_eq.
Qed.

Lemma batch_loop_fs num_files final_res padding files : ∀ row dataset w r w',
  batch_loop files row num_files final_res padding dataset w = (r, w') →
  fs w' = fs w.
Proof.
  induction files as [|file files IH]; intros row dataset w r w' Hrun.
  - by injection Hrun as _ <-.
  - rewrite batch_loop_cons in Hrun.
    rewrite (load_and_process_frame _ _ _ w) in Hrun by done.
    destruct ((load_and_process file final_res padding w).1) as [arr|e].
    + destruct (np_setitem dataset row arr) as [dataset'|e].
      * by apply IH in Hrun.
      * by injection Hrun as _ <-.
    + by injection Hrun as _ <-.
Qed.

Lemma makedirs_save_dir_inv (f f' : gmap (list string) node) :
  makedirs_rev ["clean"; "data"] f = Ok f' →
  ∀ q : list string, q ≠ ["data"] → q ≠ ["data"; "clean"] → f' !! q = f !! q.
Proof.
  cbn [makedirs_rev reverse]. cbn. intros Hmk q Hq1 Hq2.
  unfold os_mkdir, path_exists, is_dir in Hmk. cbn in Hmk.
  destruct (f !! ["data"]) as [n|] eqn:Hn; cbn in Hmk.
  - destruct (f !! ["data"; "clean"]); [done|]. rewrite Hn in Hmk.
    destruct n; try done. injection Hmk as <-. by rewrite lookup_insert_ne.
  - rewrite lookup_insert_ne in Hmk by done.
    destruct (f !! ["data"; "clean"]); [done|].
    rewrite lookup_insert_eq in Hmk.
    injection Hmk as <-. by rewrite !lookup_insert_ne.
Qed.

Lemma finish_inv_frame dest_file dataset w w' :
  finish dest_file dataset w = (Ok (), w') →
  ∀ q, q ≠ path_of (npy_name dest_file) → q ≠ ["data"] → q ≠ ["data"; "clean"] →
       fs w' !! q = fs w !! q.
Proof.
  unfold finish, mbind, M_bind. rewrite os_path_exists_PATH_SAVE.
  unfold os_makedirs, np_save, print, mret, M_ret.
  intros Hfin q Hq Hq1 Hq2.
  destruct (is_dir (fs w) ["data"; "clean"]); cbn [negb] in Hfin.
  - destruct (is_dir (fs w) _); [done|].
    destruct (is_dir (fs w) _); [|done].
    injection Hfin as <-. cbn. by rewrite lookup_insert_ne.
  - destruct (makedirs_rev _ _) as [f|e] eqn:Hmk; [|done]. cbn [fs set_fs] in Hfin.
    destruct (is_dir f _); [done|].
    destruct (is_dir f _); [|done].
    injection Hfin as <-. cbn. rewrite lookup_insert_ne by done.
    by apply (makedirs_save_dir_inv (fs w)).
Qed.

Lemma batch_preprocess_inv_frame files_list dest_file final_res padding w w' :
  batch_preprocess files_list dest_file final_res padding w = (Ok (), w') →
  ∀ q, q ≠ path_of (npy_name dest_file) → q ≠ ["data"] → q ≠ ["data"; "clean"] →
       fs w' !! q = fs w !! q.
Proof.
  rewrite batch_preprocess_unfold.
  destruct (np_empty _ _) as [dataset|e]; [|done].
  destruct (batch_loop _ _ _ _ _ _ _) as [[out|e] w1] eqn:Hloop; [|done].
  intros Hfin q Hq Hq1 Hq2. apply batch_loop_fs in Hloop. rewrite <- Hloop.
  by apply (finish_inv_frame dest_file out).
Qed.

Lemma batch_preprocess_inv (files_list : list string) (dest_file : string)
    (final_res : Z) (padding : bool) (w w' : World) :
  batch_preprocess files_list dest_file final_res padding w = (Ok (), w') →
  ∃ arrs,
    Forall2 (λ file arr, (load_and_process file final_res padding w).1 = Ok arr)
            files_list arrs
    ∧ fs w' !! path_of (npy_name dest_file)
      = Some (NpyFile (mkArray (Z.of_nat (length files_list), final_res * final_res)
                               (map flat arrs))).
Proof.
  rewrite batch_preprocess_unfold.
  destruct (np_empty _ _) as [dataset|e] eqn:Hemp; [|done].
  apply np_empty_inv in Hemp as [_ ->].
  destruct (batch_loop _ _ _ _ _ _ _) as [[out|e] w1] eqn:Hloop; [|done].
  intros Hfin.
  pose proof (batch_loop_inv _ _ _ w _ _ _ _ _ _ eq_refl Hloop) as Hall.
  apply processes_Forall2 in Hall as [arrs Harrs].
  exists arrs. split; [exact Harrs|].
  rewrite (batch_loop_ok _ _ _ w _ arrs) in Hloop; try done.
  - injection Hloop as <- <-. apply finish_inv in Hfin. rewrite Hfin.
    do 3 f_equal. cbn [blank data fst snd]. rewrite Nat2Z.id. cbn [take app Nat.add].
    rewrite drop_ge by (by rewrite length_replicate). by rewrite app_nil_r.
  - cbn [blank data fst snd]. by rewrite length_replicate, Nat2Z.id.
  - cbn [blank data fst snd]. rewrite length_replicate, Nat2Z.id. simpl. lia.
Qed.


(** X12: whenever [batch_preprocess] returns normally, every file of the
    list was opened and processed without error, the destination holds the
    array whose rows are the flattened results, in the order of the list,
    and nothing else on disk changed, "data" and the save directory
    apart. *)
Theorem batch_preprocess_returns (files_list : list string) (dest_file : string)
    (final_res : Z) (padding : bool) (w w' : World) :
  batch_preprocess files_list dest_file final_res padding w = (Ok (), w') →
  (∃ arrs,
     Forall2 (λ file arr, (load_and_process file final_res padding w).1 = Ok arr)
             files_list arrs
     ∧ fs w' !! path_of (npy_name dest_file)
       = Some (NpyFile (mkArray (Z.of_nat (length files_list), final_res * final_res)
                                (map flat arrs))))
  ∧ ∀ q, q ≠ path_of (npy_name dest_file) → q ≠ ["data"] → q ≠ ["data"; "clean"] →
         fs w' !! q = fs w !! q.
Proof.
  intros Hrun. split.
  - by apply batch_preprocess_inv.
  - by apply (batch_preprocess_inv_frame files_list dest_file final_res padding).
Qed.

(** ** Running the driver again *)





End driver.

(** ** File-name patterns *)

Lemma str_app_nil_r (s : string) : s +:+ "" = s.
Proof.
  induction s as [|c s IH]; [done|].
  change (String c s +:+ "") with (String c (s +:+ "")). by rewrite IH.
Qed.

Lemma str_app_assoc (a b c : string) : (a +:+ b) +:+ c = a +:+ b +:+ c.
Proof.
  induction a as [|x a IH]; [done|].
  change (String x ((a +:+ b) +:+ c) = String x (a +:+ b +:+ c)). by rewrite IH.
Qed.

Lemma str_app_length (a b : string) :
  String.length (a +:+ b) = (String.length a + String.length b)%nat.
Proof.
  induction a as [|x a IH]; [done|].
  change (S (String.length (a +:+ b)) = S (String.length a + String.length b)).
  by rewrite IH.
Qed.

Lemma fnmatch_items_nil name : fnmatch_items [] name = true ↔ name = "".
Proof. by destruct name. Qed.

Lemma fnmatch_items_lit c pat name :
  fnmatch_items (Lit c :: pat) name = true
  ↔ ∃ name', name = String c name' ∧ fnmatch_items pat name' = true.
Proof.
  destruct name as [|d name']; simpl.
  - split; [done | by intros (? & ? & _)].
  - rewrite andb_true_iff, Ascii.eqb_eq. split.
    + intros [-> Hm]. by exists name'.
    + intros (n & [= -> ->] & Hm). done.
Qed.

Lemma fnmatch_items_digit pat name :
  fnmatch_items (Digit :: pat) name = true
  ↔ ∃ d name', name = String d name' ∧ is_digit d = true
               ∧ fnmatch_items pat name' = true.
Proof.
  destruct name as [|d name']; simpl.
  - split; [done | by intros (? & ? & ? & _)].
  - rewrite andb_true_iff. split.
    + intros [Hd Hm]. by exists d, name'.
    + intros (d' & n & [= -> ->] & Hd & Hm). done.
Qed.

Lemma fnmatch_items_star_unfold pat name :
  fnmatch_items (Star :: pat) name
  = fnmatch_items pat name
    || match name with
       | String _ name' => fnmatch_items (Star :: pat) name'
       | EmptyString => false
       end.
Proof. by destruct name. Qed.

(** [*] stands for any prefix of the name. *)
Lemma fnmatch_items_star pat name :
  fnmatch_items (Star :: pat) name = true
  ↔ ∃ pre rest, name = pre +:+ rest ∧ fnmatch_items pat rest = true.
Proof.
  induction name as [|c name IH].
  - rewrite fnmatch_items_star_unfold, orb_false_r. split.
    + intros Hm. by exists "", "".
    + intros (pre & rest & Heq & Hm).
      destruct pre as [|a pre]; cbn in Heq; [|done]. by rewrite Heq.
  - rewrite fnmatch_items_star_unfold, orb_true_iff, IH. split.
    + intros [Hm | (pre & rest & -> & Hm)].
      * by exists "", (String c name).
      * by exists (String c pre), rest.
    + intros (pre & rest & Heq & Hm). destruct pre as [|c' pre].
      * left. cbn in Heq. by rewrite Heq.
      * right. injection Heq as -> ->. by exists pre, rest.
Qed.

(** A run of [n] digit items stands for [n] digits. *)
Lemma fnmatch_items_digits n pat name :
  fnmatch_items (replicate n Digit ++ pat) name = true
  ↔ ∃ ds rest, name = ds +:+ rest ∧ String.length ds = n
               ∧ all_digits ds = true ∧ fnmatch_items pat rest = true.
Proof.
  revert name. induction n as [|n IH]; intros name; simpl replicate; simpl app.
  - split.
    + intros Hm. by exists "", name.
    + intros (ds & rest & -> & Hlen & _ & Hm). by destruct ds.
  - rewrite fnmatch_items_digit. split.
    + intros (d & name' & -> & Hd & Hm). apply IH in Hm as (ds & rest & -> & Hlen & Hds & Hm).
      exists (String d ds), rest. simpl. rewrite Hd, Hds, Hlen. done.
    + intros (ds & rest & -> & Hlen & Hds & Hm). destruct ds as [|d ds]; [done|].
      simpl in Hlen, Hds. apply andb_true_iff in Hds as [Hd Hds].
      exists d, (ds +:+ rest). split; [done|]. split; [done|].
      apply IH. exists ds, rest. split; [done|]. split; [lia|]. done.
Qed.

(** Literal items stand for themselves. *)
Lemma fnmatch_items_lits (lits : string) pat name :
  fnmatch_items (map Lit (list_ascii_of_string lits) ++ pat) name = true
  ↔ ∃ rest, name = lits +:+ rest ∧ fnmatch_items pat rest = true.
Proof.
  revert name. induction lits as [|c lits IH]; intros name;
    cbn [list_ascii_of_string map app].
  - split; [by exists name | by intros (rest & -> & Hm)].
  - rewrite fnmatch_items_lit. split.
    + intros (name' & -> & Hm). apply IH in Hm as (rest & -> & Hm). by exists rest.
    + intros (rest & -> & Hm). exists (lits +:+ rest). split; [done|].
      apply IH. by exists rest.
Qed.

(** The patterns of the module. *)
Lemma fnmatch_extension (ext name : string) :
  fnmatch_translate ("*" +:+ ext)
  = Star :: map Lit (list_ascii_of_string ext) ++ [] →
  fnmatch name ("*" +:+ ext) = true ↔ ∃ stem, name = stem +:+ ext.
Proof.
  intros Htr. unfold fnmatch. rewrite Htr, fnmatch_items_star. split.
  - intros (pre & rest & -> & Hm). apply fnmatch_items_lits in Hm as (r & -> & Hm).
    apply fnmatch_items_nil in Hm as ->. rewrite str_app_nil_r. by exists pre.
  - intros (stem & ->). exists stem, ext. split; [done|].
    apply fnmatch_items_lits. exists "". by rewrite str_app_nil_r.
Qed.

Lemma fnmatch_any_dot name :
  fnmatch name "*.*" = true ↔ ∃ stem ext, name = stem +:+ "." +:+ ext.
Proof.
  unfold fnmatch. change (fnmatch_translate "*.*") with [Star; Lit "."%char; Star].
  rewrite fnmatch_items_star. split.
  - intros (pre & rest & -> & Hm).
    apply fnmatch_items_lit in Hm as (rest' & -> & Hm). by exists pre, rest'.
  - intros (stem & ext & ->). exists stem, ("." +:+ ext). split; [done|].
    apply fnmatch_items_lit. exists ext. split; [done|].
    apply fnmatch_items_star. exists ext, "". by rewrite str_app_nil_r.
Qed.

Lemma fnmatch_numbered (n : nat) name :
  fnmatch_translate ("*_" +:+ str_mul "[0-9]" n +:+ ".*")
  = Star :: Lit "_"%char :: replicate n Digit ++ [Lit "."%char; Star] →
  fnmatch name ("*_" +:+ str_mul "[0-9]" n +:+ ".*") = true ↔ numbered n name.
Proof.
  intros Htr. unfold fnmatch, numbered. rewrite Htr, fnmatch_items_star. split.
  - intros (pre & rest & -> & Hm).
    apply fnmatch_items_lit in Hm as (rest' & -> & Hm).
    apply fnmatch_items_digits in Hm as (ds & rest & -> & Hlen & Hds & Hm).
    apply fnmatch_items_lit in Hm as (post & -> & _).
    by exists pre, ds, post.
  - intros (pre & ds & post & -> & Hlen & Hds).
    exists pre, ("_" +:+ ds +:+ "." +:+ post). split; [done|].
    apply fnmatch_items_lit. exists (ds +:+ "." +:+ post). split; [done|].
    apply fnmatch_items_digits. exists ds, ("." +:+ post).
    split; [done|]. split; [done|]. split; [done|].
    apply fnmatch_items_lit. exists post. split; [done|].
    apply fnmatch_items_star. exists post, "". by rewrite str_app_nil_r.
Qed.

(** ** Directory listings *)

Lemma parent_last (p d : list string) (name : string) :
  parent p = d ∧ last p = Some name ↔ p = d ++ [name].
Proof.
  unfold parent. split.
  - intros [<- Hlast]. apply last_Some in Hlast as [l' ->].
    rewrite length_app. simpl. rewrite Nat.add_sub, take_app_length. done.
  - intros ->. rewrite length_app. simpl.
    rewrite Nat.add_sub, take_app_length, last_snoc. done.
Qed.

Lemma os_listdir_elem (f : gmap (list string) node) d name :
  In name (os_listdir f d) ↔ is_Some (f !! (d ++ [name])).
Proof.
  unfold os_listdir. rewrite <- list_elem_of_In, list_elem_of_omap. split.
  - intros ([p n] & Hin & Hname). apply elem_of_map_to_list in Hin.
    case_bool_decide as Hpar; [|done].
    assert (p = d ++ [name]) as <- by (by apply parent_last). by exists n.
  - intros [n Hn]. exists (d ++ [name], n). split; [by apply elem_of_map_to_list|].
    destruct (proj2 (parent_last (d ++ [name]) d name) eq_refl) as [Hpar Hlast].
    by rewrite bool_decide_eq_true_2.
Qed.

Lemma glob1_elem (f : gmap (list string) node) d pattern name :
  In name (glob1 f d pattern)
  ↔ is_dir f d = true ∧ is_Some (f !! (d ++ [name]))
    ∧ ishidden pattern || negb (ishidden name) = true
    ∧ fnmatch name pattern = true.
Proof.
  unfold glob1. destruct (is_dir f d).
  - rewrite filter_In, os_listdir_elem, andb_true_iff. tauto.
  - simpl. split; [done | by intros [? _]].
Qed.

Lemma relative_to_spec (d p rel : list string) :
  relative_to d p = Some rel ↔ p = d ++ rel.
Proof.
  revert p. induction d as [|x d IH]; intros p; simpl.
  - split; [by intros [= ->] | by intros ->].
  - destruct p as [|y p]; [done|].
    destruct (String.eqb_spec x y) as [->|Hne].
    + rewrite IH. split; [by intros -> | by intros [= ->]].
    + split; [done | by intros [= <- _]].
Qed.

Lemma walkable_dir (f : gmap (list string) node) d rel :
  rel ≠ [] → walkable f d rel = true → f !! (d ++ rel) = Some Dir.
Proof.
  revert d. induction rel as [|x rel IH]; intros d Hne Hwalk; [done|].
  simpl in Hwalk. apply andb_true_iff in Hwalk as [[_ Hdir]%andb_true_iff Hwalk].
  destruct rel as [|y rel].
  - unfold is_dir in Hdir. destruct (d ++ [x]) eqn:Hd; [by destruct d|].
    by destruct (f !! (s :: l)) as [[]|].
  - rewrite (cons_middle x d), app_assoc. by apply IH.
Qed.

Lemma rlistdir_elem (f : gmap (list string) node) d rel :
  In rel (rlistdir f d) ↔ rel ≠ [] ∧ walkable f d rel = true.
Proof.
  unfold rlistdir. rewrite <- list_elem_of_In, list_elem_of_omap. split.
  - intros ([p n] & Hin & Hrel).
    destruct (relative_to d p) as [[|x rel']|]; try done.
    destruct (walkable f d (x :: rel')) eqn:Hwalk; [|done].
    by injection Hrel as <-.
  - intros [Hne Hwalk]. exists (d ++ rel, Dir). split.
    + by apply elem_of_map_to_list, walkable_dir.
    + rewrite (proj2 (relative_to_spec d (d ++ rel) rel) eq_refl).
      destruct rel as [|x rel']; [done|]. by rewrite Hwalk.
Qed.

Lemma walked_elem (f : gmap (list string) node) d rel :
  In rel ([] :: rlistdir f d) ↔ walkable f d rel = true.
Proof.
  simpl. rewrite rlistdir_elem. split.
  - by intros [<- | [_ Hwalk]].
  - intros Hwalk. destruct rel; [by left | by right].
Qed.

(** ** What [glob] finds *)

Lemma glob_glob_plain (dir pattern : string) (w : World) :
  basename (dir +:+ pattern) = pattern → dirname (dir +:+ pattern) = dir →
  glob_glob (dir +:+ pattern) false w
  = (Ok (map (λ name, dir +:+ name) (glob1 (fs w) (path_of dir) pattern)), w).
Proof. intros Hb Hd. unfold glob_glob. by rewrite Hb, Hd. Qed.

Lemma glob_glob_deep (pathname base pattern : string) (w : World) :
  basename pathname = pattern →
  has_suffix "**/" (dirname pathname) = true →
  substring 0 (String.length (dirname pathname) - 3) (dirname pathname) = base →
  glob_glob pathname true w
  = (Ok (flat_map
           (λ rel, map (λ name, base +:+ join_slash rel +:+ name)
                       (glob1 (fs w) (path_of base ++ rel) pattern))
           ([] :: rlistdir (fs w) (path_of base))), w).
Proof. intros Hb Hs Hd. unfold glob_glob. by rewrite Hb, Hs, Hd. Qed.

(** The entries found by a pattern that does not start with a dot. *)
Lemma found_deep (f : gmap (list string) node) (base : string) d pattern s :
  ishidden pattern = false →
  In s (flat_map
          (λ rel, map (λ name, base +:+ join_slash rel +:+ name)
                      (glob1 f (d ++ rel) pattern))
          ([] :: rlistdir f d))
  ↔ ∃ rel name, found f base d rel name s ∧ fnmatch name pattern = true.
Proof.
  intros Hpat. rewrite in_flat_map. unfold found. split.
  - intros (rel & Hrel & Hs). apply walked_elem in Hrel.
    apply in_map_iff in Hs as (name & <- & Hname).
    apply glob1_elem in Hname as (Hdir & Hentry & Hhid & Hmatch).
    rewrite Hpat in Hhid. simpl in Hhid. apply negb_true_iff in Hhid.
    exists rel, name. by rewrite app_assoc.
  - intros (rel & name & (Hwalk & Hdir & Hentry & Hhid & ->) & Hmatch).
    exists rel. split; [by apply walked_elem|].
    apply in_map_iff. exists name. split; [done|].
    apply glob1_elem. rewrite Hpat, Hhid. rewrite app_assoc in Hentry. done.
Qed.

Lemma found_plain (f : gmap (list string) node) (dir : string) d pattern s :
  ishidden pattern = false →
  In s (map (λ name, dir +:+ name) (glob1 f d pattern))
  ↔ ∃ name, found f dir d [] name s ∧ fnmatch name pattern = true.
Proof.
  intros Hpat. rewrite in_map_iff. unfold found. simpl walkable.
  rewrite app_nil_r. split.
  - intros (name & <- & Hname).
    apply glob1_elem in Hname as (Hdir & Hentry & Hhid & Hmatch).
    rewrite Hpat in Hhid. simpl in Hhid. apply negb_true_iff in Hhid.
    by exists name.
  - intros (name & (_ & Hdir & Hentry & Hhid & ->) & Hmatch).
    exists name. split; [done|]. apply glob1_elem. by rewrite Hpat, Hhid.
Qed.

(** ** The files the module discovers *)

Lemma fetch_all_raw_forgeries_unfold (w : World) :
  fetch_all_raw_forgeries w
  = (Ok (map (λ name, join_slash FORGERIES_DIR +:+ name)
             (glob1 (fs w) FORGERIES_DIR "*.png")
         ++ flat_map
              (λ rel, map (λ name, join_slash QUESTIONED_DIR +:+ join_slash rel +:+ name)
                          (glob1 (fs w) (QUESTIONED_DIR ++ rel)
                                 ("*_" +:+ str_mul "[0-9]" 7 +:+ ".*")))
              ([] :: rlistdir (fs w) QUESTIONED_DIR)), w).
Proof.
  unfold fetch_all_raw_forgeries, mbind, M_bind, mret, M_ret.
  rewrite glob_glob_plain by (vm_compute; reflexivity).
  rewrite (glob_glob_deep _ (join_slash QUESTIONED_DIR)
             ("*_" +:+ str_mul "[0-9]" 7 +:+ ".*")) by (vm_compute; reflexivity).
  reflexivity.
Qed.

Lemma fetch_all_raw_genuine_unfold (w : World) :
  fetch_all_raw_genuine w
  = (Ok ((map (λ name, join_slash GENUINE_DIR +:+ name)
              (glob1 (fs w) GENUINE_DIR "*.PNG")
          ++ flat_map
               (λ rel, map (λ name, join_slash REFERENCE_DIR +:+ join_slash rel +:+ name)
                           (glob1 (fs w) (REFERENCE_DIR ++ rel) "*.*"))
               ([] :: rlistdir (fs w) REFERENCE_DIR))
         ++ flat_map
              (λ rel, map (λ name, join_slash QUESTIONED_DIR +:+ join_slash rel +:+ name)
                          (glob1 (fs w) (QUESTIONED_DIR ++ rel)
                                 ("*_" +:+ str_mul "[0-9]" 3 +:+ ".*")))
              ([] :: rlistdir (fs w) QUESTIONED_DIR)), w).
Proof.
  unfold fetch_all_raw_genuine, mbind, M_bind, mret, M_ret.
  rewrite glob_glob_plain by (vm_compute; reflexivity).
  rewrite (glob_glob_deep _ (join_slash REFERENCE_DIR) "*.*")
    by (vm_compute; reflexivity).
  rewrite (glob_glob_deep _ (join_slash QUESTIONED_DIR)
             ("*_" +:+ str_mul "[0-9]" 3 +:+ ".*")) by (vm_compute; reflexivity).
  reflexivity.
Qed.

Lemma fnmatch_png name :
  fnmatch name "*.png" = true ↔ ∃ stem, name = stem +:+ ".png".
Proof. by apply (fnmatch_extension ".png"). Qed.

Lemma fnmatch_PNG name :
  fnmatch name "*.PNG" = true ↔ ∃ stem, name = stem +:+ ".PNG".
Proof. by apply (fnmatch_extension ".PNG"). Qed.

Lemma fnmatch_numbered_3 name :
  fnmatch name ("*_" +:+ str_mul "[0-9]" 3 +:+ ".*") = true ↔ numbered 3 name.
Proof. by apply (fnmatch_numbered 3). Qed.

Lemma fnmatch_numbered_7 name :
  fnmatch name ("*_" +:+ str_mul "[0-9]" 7 +:+ ".*") = true ↔ numbered 7 name.
Proof. by apply (fnmatch_numbered 7). Qed.

Lemma fetch_all_raw_forgeries_elem (w : World) (s : string) :
  In s (map (λ name, join_slash FORGERIES_DIR +:+ name)
            (glob1 (fs w) FORGERIES_DIR "*.png")
        ++ flat_map
             (λ rel, map (λ name, join_slash QUESTIONED_DIR +:+ join_slash rel +:+ name)
                         (glob1 (fs w) (QUESTIONED_DIR ++ rel)
                                ("*_" +:+ str_mul "[0-9]" 7 +:+ ".*")))
             ([] :: rlistdir (fs w) QUESTIONED_DIR))
  ↔ (∃ name, found (fs w) (join_slash FORGERIES_DIR) FORGERIES_DIR [] name s
             ∧ ∃ stem, name = stem +:+ ".png")
    ∨ (∃ rel name,
         found (fs w) (join_slash QUESTIONED_DIR) QUESTIONED_DIR rel name s
         ∧ numbered 7 name).
Proof.
  rewrite in_app_iff, found_plain, found_deep by reflexivity.
  setoid_rewrite fnmatch_png. setoid_rewrite fnmatch_numbered_7. done.
Qed.

Lemma fetch_all_raw_genuine_elem (w : World) (s : string) :
  In s ((map (λ name, join_slash GENUINE_DIR +:+ name)
             (glob1 (fs w) GENUINE_DIR "*.PNG")
         ++ flat_map
              (λ rel, map (λ name, join_slash REFERENCE_DIR +:+ join_slash rel +:+ name)
                          (glob1 (fs w) (REFERENCE_DIR ++ rel) "*.*"))
              ([] :: rlistdir (fs w) REFERENCE_DIR))
        ++ flat_map
             (λ rel, map (λ name, join_slash QUESTIONED_DIR +:+ join_slash rel +:+ name)
                         (glob1 (fs w) (QUESTIONED_DIR ++ rel)
                                ("*_" +:+ str_mul "[0-9]" 3 +:+ ".*")))
             ([] :: rlistdir (fs w) QUESTIONED_DIR))
  ↔ (∃ name, found (fs w) (join_slash GENUINE_DIR) GENUINE_DIR [] name s
             ∧ ∃ stem, name = stem +:+ ".PNG")
    ∨ (∃ rel name,
         found (fs w) (join_slash REFERENCE_DIR) REFERENCE_DIR rel name s
         ∧ ∃ stem ext, name = stem +:+ "." +:+ ext)
    ∨ (∃ rel name,
         found (fs w) (join_slash QUESTIONED_DIR) QUESTIONED_DIR rel name s
         ∧ numbered 3 name).
Proof.
  rewrite !in_app_iff, found_plain, !found_deep by reflexivity.
  setoid_rewrite fnmatch_PNG. setoid_rewrite fnmatch_any_dot.
  setoid_rewrite fnmatch_numbered_3. tauto.
Qed.

(** X14: [fetch_all_raw_forgeries] never fails and leaves the world alone.
    It lists exactly: the entries of "Offline Forgeries" whose name ends in
    ".png" (lower case), and the entries at any depth below
    "Questioned(1287)" whose name contains "_", seven digits and a dot;
    hidden entries and entries below hidden directories are left out. *)
Theorem fetch_all_raw_forgeries_spec (w : World) :
  ∃ files,
    fetch_all_raw_forgeries w = (Ok files, w)
    ∧ ∀ s, s ∈ files
           ↔ (∃ name, found (fs w) (join_slash FORGERIES_DIR) FORGERIES_DIR [] name s
                      ∧ ∃ stem, name = stem +:+ ".png")
             ∨ (∃ rel name,
                  found (fs w) (join_slash QUESTIONED_DIR) QUESTIONED_DIR rel name s
                  ∧ numbered 7 name).
Proof.
  eexists. split; [apply fetch_all_raw_forgeries_unfold|].
  intros s. rewrite list_elem_of_In. apply fetch_all_raw_forgeries_elem.
Qed.

(** X15: [fetch_all_raw_genuine] never fails and leaves the world alone.
    It lists exactly: the entries of "Offline Genuine" whose name ends in
    ".PNG" (upper case); the entries at any depth below "Reference(646)"
    whose name contains a dot; and the entries at any depth below
    "Questioned(1287)" whose name contains "_", three digits and a dot;
    hidden entries and entries below hidden directories are left out. *)
Theorem fetch_all_raw_genuine_spec (w : World) :
  ∃ files,
    fetch_all_raw_genuine w = (Ok files, w)
    ∧ ∀ s, s ∈ files
           ↔ (∃ name, found (fs w) (join_slash GENUINE_DIR) GENUINE_DIR [] name s
                      ∧ ∃ stem, name = stem +:+ ".PNG")
             ∨ (∃ rel name,
                  found (fs w) (join_slash REFERENCE_DIR) REFERENCE_DIR rel name s
                  ∧ ∃ stem ext, name = stem +:+ "." +:+ ext)
             ∨ (∃ rel name,
                  found (fs w) (join_slash QUESTIONED_DIR) QUESTIONED_DIR rel name s
                  ∧ numbered 3 name).
Proof.
  eexists. split; [apply fetch_all_raw_genuine_unfold|].
  intros s. rewrite list_elem_of_In. apply fetch_all_raw_genuine_elem.
Qed.

(** ** From discovered names to entries of the file system *)

Lemma split_path_no_slash (a cur : string) :
  no_slash a = true → split_path cur a = [cur +:+ a].
Proof.
  revert cur. induction a as [|c a IH]; intros cur Hns; simpl.
  - by rewrite str_app_nil_r.
  - simpl in Hns. apply andb_true_iff in Hns as [Hc Hns].
    apply negb_true_iff in Hc. rewrite Hc, IH by done.
    by rewrite str_app_assoc.
Qed.

Lemma split_path_component (a cur rest : string) :
  no_slash a = true →
  split_path cur (a +:+ "/" +:+ rest) = (cur +:+ a) :: split_path "" rest.
Proof.
  revert cur. induction a as [|c a IH]; intros cur Hns.
  - cbn. by rewrite str_app_nil_r.
  - simpl in Hns. apply andb_true_iff in Hns as [Hc Hns].
    apply negb_true_iff in Hc.
    change (String c a +:+ "/" +:+ rest) with (String c (a +:+ "/" +:+ rest)).
    cbn [split_path]. rewrite Hc, IH by done. by rewrite str_app_assoc.
Qed.

Lemma split_path_join (comps : list string) (name : string) :
  Forall (λ c, clean c = true) comps → no_slash name = true →
  split_path "" (join_slash comps +:+ name) = comps ++ [name].
Proof.
  intros Hcomps Hname. induction Hcomps as [|c comps Hc Hcomps IH].
  - cbn. by apply (split_path_no_slash name "").
  - cbn [join_slash foldr]. fold (join_slash comps).
    rewrite !str_app_assoc. apply andb_true_iff in Hc as [_ Hc].
    rewrite split_path_component by done. cbn. by rewrite IH.
Qed.

Lemma clean_first (c : string) :
  clean c = true → ∃ x c', c = String x c' ∧ x ≠ "/"%char.
Proof.
  unfold clean. destruct c as [|x c']; [done|]. simpl.
  intros [Hx _]%andb_true_iff. exists x, c'. split; [done|].
  apply negb_true_iff in Hx. by apply Ascii.eqb_neq.
Qed.

Lemma filter_clean (l : list string) :
  Forall (λ c, clean c = true) l → filter (λ c, c ≠ "") l = l.
Proof.
  induction 1 as [|c l Hc Hl IH]; [done|].
  rewrite filter_cons_True, IH; [done|].
  apply clean_first in Hc as (x & c' & -> & _). done.
Qed.

Lemma path_of_join (comps : list string) (name : string) :
  Forall (λ c, clean c = true) (comps ++ [name]) →
  path_of (join_slash comps +:+ name) = comps ++ [name].
Proof.
  intros Hall. pose proof Hall as Hall'.
  apply Forall_app in Hall as [Hcomps Hname].
  apply Forall_cons in Hname as [Hname _].
  unfold path_of. rewrite split_path_join; [|done|].
  2: { by apply andb_true_iff in Hname as [_ ?]. }
  assert (Hmarker : match join_slash comps +:+ name with
                    | String "/"%char _ => ["/"]
                    | _ => []
                    end = ([] : list string)).
  { destruct comps as [|c comps].
    - cbn. apply clean_first in Hname as (x & n' & -> & Hx).
      destruct x as [[] [] [] [] [] [] [] []]; try done.
    - apply Forall_cons in Hcomps as [Hc _].
      apply clean_first in Hc as (x & c' & -> & Hx). cbn.
      destruct x as [[] [] [] [] [] [] [] []]; try done. }
  rewrite Hmarker. cbn [app]. by apply filter_clean.
Qed.

Lemma clean_names_lookup (f : gmap (list string) node) p n :
  clean_names f = true → f !! p = Some n → Forall (λ c, clean c = true) p.
Proof.
  unfold clean_names. rewrite forallb_forall. intros Hall Hp.
  apply elem_of_map_to_list, list_elem_of_In in Hp.
  specialize (Hall _ Hp). by apply forallb_Forall_true.
Qed.

Lemma join_slash_app (a b : list string) :
  join_slash (a ++ b) = join_slash a +:+ join_slash b.
Proof.
  induction a as [|c a IH]; [done|].
  cbn [app join_slash foldr]. fold (join_slash (a ++ b)) (join_slash a).
  by rewrite IH, !str_app_assoc.
Qed.

(** A found name, read back as a path, is the entry it was found at. *)
Lemma found_resolves (f : gmap (list string) node) d rel name s :
  clean_names f = true → found f (join_slash d) d rel name s →
  path_of s = d ++ rel ++ [name] ∧ is_Some (f !! path_of s).
Proof.
  intros Hclean (_ & _ & [n Hentry] & _ & ->).
  pose proof (clean_names_lookup f _ n Hclean Hentry) as Hcomps.
  assert (Hpath : path_of (join_slash d +:+ join_slash rel +:+ name)
                  = d ++ rel ++ [name]).
  { rewrite <- str_app_assoc, <- join_slash_app, app_assoc.
    apply path_of_join. by rewrite <- app_assoc. }
  rewrite Hpath. split; [done | by exists n].
Qed.

(** X16: on a file system whose names are clean, every path that
    [fetch_all_raw_genuine] or [fetch_all_raw_forgeries] returns names an
    existing entry, so [Image.open] does not fail on it for want of the
    file. *)
Theorem discovered_files_exist (w : World) (files : list string) (s : string) :
  clean_names (fs w) = true →
  (fetch_all_raw_genuine w).1 = Ok files ∨ (fetch_all_raw_forgeries w).1 = Ok files →
  s ∈ files →
  is_Some (fs w !! path_of s) ∧ (Image_open s w).1 ≠ Raise FileNotFoundError.
Proof.
  intros Hclean Hfiles Hs. apply list_elem_of_In in Hs.
  assert (Hentry : is_Some (fs w !! path_of s)).
  { destruct Hfiles as [Hfiles | Hfiles].
    - rewrite fetch_all_raw_genuine_unfold in Hfiles. injection Hfiles as <-.
      apply fetch_all_raw_genuine_elem in Hs
        as [(name & Hf & _) | [(rel & name & Hf & _) | (rel & name & Hf & _)]];
        by apply found_resolves in Hf as [_ ?].
    - rewrite fetch_all_raw_forgeries_unfold in Hfiles. injection Hfiles as <-.
      apply fetch_all_raw_forgeries_elem in Hs
        as [(name & Hf & _) | (rel & name & Hf & _)];
        by apply found_resolves in Hf as [_ ?]. }
  split; [done|]. unfold Image_open. cbn [fst].
  destruct Hentry as [n ->]. by destruct n.
Qed.

(** ** Names listed twice *)

Lemma count_char_app c (a b : string) :
  count_char c (a +:+ b) = (count_char c a + count_char c b)%nat.
Proof.
  induction a as [|x a IH]; [done|].
  change (String x a +:+ b) with (String x (a +:+ b)). cbn [count_char].
  rewrite IH. lia.
Qed.

Lemma all_digits_app (a b : string) :
  all_digits (a +:+ b) = all_digits a && all_digits b.
Proof.
  induction a as [|x a IH]; [done|].
  change (String x a +:+ b) with (String x (a +:+ b)). cbn [all_digits].
  by rewrite IH, andb_assoc.
Qed.

Lemma diverge_app (a b x y : string) :
  diverge a b = true → a +:+ x ≠ b +:+ y.
Proof.
  revert b. induction a as [|c a IH]; intros b Hd; [done|].
  destruct b as [|c' b]; [done|]. simpl in Hd.
  change (String c (a +:+ x) ≠ String c' (b +:+ y)). intros [= -> Heq].
  rewrite Ascii.eqb_refl in Hd. simpl in Hd. by apply (IH b).
Qed.

Lemma str_app_split (a b a' b' : string) :
  a +:+ b = a' +:+ b' → (String.length a ≤ String.length a')%nat →
  ∃ m, a' = a +:+ m ∧ b = m +:+ b'.
Proof.
  revert a'. induction a as [|c a IH]; intros a' Heq Hlen.
  - exists a'. done.
  - destruct a' as [|c' a']; [simpl in Hlen; lia|].
    change (String c (a +:+ b) = String c' (a' +:+ b')) in Heq.
    injection Heq as -> Heq. simpl in Hlen.
    destruct (IH a' Heq) as (m & -> & ->); [lia|]. by exists m.
Qed.

(** Where the first occurrence of a character is, is determined. *)
Lemma first_occurrence c (a a' r r' : string) :
  count_char c a = O → count_char c a' = O →
  a +:+ String c r = a' +:+ String c r' → a = a' ∧ r = r'.
Proof.
  revert a'. induction a as [|x a IH]; intros a' Ha Ha' Heq.
  - destruct a' as [|x' a']; [by injection Heq as ->|].
    change (String c r = String x' (a' +:+ String c r')) in Heq.
    injection Heq as <- _. simpl in Ha'. rewrite Ascii.eqb_refl in Ha'. done.
  - simpl in Ha. destruct (Ascii.eqb c x) eqn:Hcx; [done|].
    destruct a' as [|x' a'].
    + change (String x (a +:+ String c r) = String c r') in Heq.
      injection Heq as -> _. by rewrite Ascii.eqb_refl in Hcx.
    + change (String x (a +:+ String c r) = String x' (a' +:+ String c r')) in Heq.
      injection Heq as <- Heq. simpl in Ha'. rewrite Hcx in Ha'.
      destruct (IH a' Ha Ha' Heq) as [-> ->]. done.
Qed.

(** A string cannot end both in a name numbered with three digits and in
    one numbered with seven, unless it holds two underscores. *)
Lemma numbered_clash (x x' name name' : string) :
  numbered 3 name → numbered 7 name' → x +:+ name = x' +:+ name' →
  (2 ≤ count_char "_" (x +:+ name))%nat.
Proof.
  intros (pre & ds & post & -> & Hlen & Hds) (pre' & ds' & post' & -> & Hlen' & Hds').
  rewrite <- !(str_app_assoc _ pre), <- !(str_app_assoc _ pre').
  set (a := x +:+ pre). set (a' := x' +:+ pre').
  change ("_" +:+ ?r) with (String "_" r).
  intros Heq.
  destruct (decide (2 ≤ count_char "_" (a +:+ String "_" (ds +:+ "." +:+ post)))%nat)
    as [|Hfew]; [done|]. exfalso.
  assert (Ha : count_char "_" a = O).
  { rewrite count_char_app in Hfew. cbn [count_char] in Hfew.
    rewrite Ascii.eqb_refl in Hfew. lia. }
  assert (Ha' : count_char "_" a' = O).
  { rewrite Heq, count_char_app in Hfew. cbn [count_char] in Hfew.
    rewrite Ascii.eqb_refl in Hfew. lia. }
  destruct (first_occurrence _ _ _ _ _ Ha Ha' Heq) as [_ Hrest].
  destruct (str_app_split _ _ _ _ Hrest) as (m & -> & Hm); [lia|].
  rewrite str_app_length in Hlen'. rewrite all_digits_app in Hds'.
  apply andb_true_iff in Hds' as [_ Hm_digits].
  destruct m as [|c m]; [simpl in Hlen'; lia|].
  change (String "." post = String c (m +:+ "." +:+ post')) in Hm.
  injection Hm as <- _. done.
Qed.

(** X17: the two discovery functions can list the same path only below
    "Questioned(1287)", and only when what follows that directory in the
    path contains at least two underscores. *)
Theorem listed_twice (w : World) (genuine forgeries : list string) (s : string) :
  (fetch_all_raw_genuine w).1 = Ok genuine →
  (fetch_all_raw_forgeries w).1 = Ok forgeries →
  s ∈ genuine → s ∈ forgeries →
  ∃ t, s = join_slash QUESTIONED_DIR +:+ t ∧ (2 ≤ count_char "_" t)%nat.
Proof.
  rewrite fetch_all_raw_genuine_unfold, fetch_all_raw_forgeries_unfold.
  intros [= <-] [= <-] Hg%list_elem_of_In Hf%list_elem_of_In.
  apply fetch_all_raw_genuine_elem in Hg.
  apply fetch_all_raw_forgeries_elem in Hf.
  destruct Hg as [(n1 & (_ & _ & _ & _ & Hs1) & _)
                 | [(r1 & n1 & (_ & _ & _ & _ & Hs1) & _)
                   | (r1 & n1 & (_ & _ & _ & _ & Hs1) & Hn1)]];
    destruct Hf as [(n2 & (_ & _ & _ & _ & Hs2) & _)
                   | (r2 & n2 & (_ & _ & _ & _ & Hs2) & Hn2)];
    rewrite Hs1 in Hs2;
    try (exfalso; revert Hs2; apply diverge_app; vm_compute; reflexivity).
  exists (join_slash r1 +:+ n1). split; [done|].
  assert (Heq : join_slash r1 +:+ n1 = join_slash r2 +:+ n2).
  { destruct (str_app_split _ _ _ _ Hs2) as (m & Hm & ->); [lia|].
    destruct m; [done|]. exfalso.
    apply (f_equal String.length) in Hm. rewrite str_app_length in Hm.
    simpl in Hm. lia. }
  by apply (numbered_clash _ (join_slash r2) n1 n2).
Qed.

(** ** The script *)

Section script.
Context {memory : Memory}.
Local Set Default Proof Using "Type".

(** X18: how the script ends.  Discovery itself never raises, so either one
    of the two calls of [batch_preprocess] raised, the genuine one first, or
    both datasets are on disk, with one row per discovered file and
    128 * 128 columns, and only then is the total compared with 2295: the
    script finishes when it is 2295 and fails its assertion, with the total
    in the message, when it is not. *)
Theorem main_outcome (w : World) :
  ∃ genuine, fetch_all_raw_genuine w = (Ok genuine, w) ∧
  ((∃ e w1, batch_preprocess genuine PATH_TRAIN_GENUINE 128 true w = (Raise e, w1)
            ∧ main w = (Raised e, w1))
   ∨ ∃ w1 forgeries,
       batch_preprocess genuine PATH_TRAIN_GENUINE 128 true w = (Ok (), w1)
       ∧ fetch_all_raw_forgeries w1 = (Ok forgeries, w1)
       ∧ ((∃ e w2, batch_preprocess forgeries PATH_TRAIN_FORGERIES 128 true w1
                   = (Raise e, w2)
                   ∧ main w = (Raised e, w2))
          ∨ ∃ w2 a_genuine a_forgeries,
              batch_preprocess forgeries PATH_TRAIN_FORGERIES 128 true w1 = (Ok (), w2)
              ∧ fs w2 !! path_of PATH_TRAIN_GENUINE = Some (NpyFile a_genuine)
              ∧ shape a_genuine = (Z.of_nat (length genuine), 128 * 128)
              ∧ length (data a_genuine) = length genuine
              ∧ fs w2 !! path_of PATH_TRAIN_FORGERIES = Some (NpyFile a_forgeries)
              ∧ shape a_forgeries = (Z.of_nat (length forgeries), 128 * 128)
              ∧ length (data a_forgeries) = length forgeries
              ∧ let n_sig := Z.of_nat (length genuine) + Z.of_nat (length forgeries) in
                main w
                = (if n_sig =? 2295 then Finished
                   else AssertionError
                          ("Was expecting to pre-process a total of 2295 images but got "
                           +:+ pretty n_sig +:+ " instead"), w2))).
Proof.
  eexists. split; [apply fetch_all_raw_genuine_unfold|].
  set (genuine := _ ++ _).
  unfold main, mbind, M_bind, mret, M_ret. rewrite fetch_all_raw_genuine_unfold.
  fold genuine.
  destruct (batch_preprocess genuine PATH_TRAIN_GENUINE 128 true w)
    as [[[]|e] w1] eqn:Hb1; [|left; by exists e, w1].
  right. exists w1. eexists. split; [done|].
  split; [apply fetch_all_raw_forgeries_unfold|].
  rewrite fetch_all_raw_forgeries_unfold. set (forgeries := _ ++ _).
  destruct (batch_preprocess forgeries PATH_TRAIN_FORGERIES 128 true w1)
    as [[[]|e] w2] eqn:Hb2; [|left; by exists e, w2].
  right.
  destruct (batch_preprocess_inv _ _ _ _ _ _ Hb1) as (arrs1 & Harrs1 & Hfile1).
  destruct (batch_preprocess_inv _ _ _ _ _ _ Hb2) as (arrs2 & Harrs2 & Hfile2).
  pose proof (batch_preprocess_inv_frame _ _ _ _ _ _ Hb2
                (path_of PATH_TRAIN_GENUINE)) as Hkeep.
  exists w2. eexists _, _. split; [done|].
  split. { rewrite Hkeep by done. exact Hfile1. }
  split; [done|]. split.
  { cbn [data]. rewrite length_map. symmetry. by eapply Forall2_length. }
  split; [exact Hfile2|]. split; [done|]. split.
  { cbn [data]. rewrite length_map. symmetry. by eapply Forall2_length. }
  cbn zeta. by destruct (_ =? 2295).
Qed.

End script.

Lemma discovered_files_exist_witness :
  is_Some (fs raw_disk !! path_of twice_listed)
  ∧ (Image_open twice_listed raw_disk).1 ≠ Raise FileNotFoundError.
Proof.
  apply (discovered_files_exist raw_disk raw_genuine twice_listed).
  - vm_compute. reflexivity.
  - left. vm_compute. reflexivity.
  - apply list_elem_of_In. vm_compute. tauto.
Defined.

Lemma listed_twice_witness :
  ∃ t, twice_listed = join_slash QUESTIONED_DIR +:+ t
       ∧ (2 ≤ count_char "_" t)%nat.
Proof.
  apply (listed_twice raw_disk raw_genuine raw_forgeries twice_listed).
  - vm_compute. reflexivity.
  - vm_compute. reflexivity.
  - apply list_elem_of_In. vm_compute. tauto.
  - apply list_elem_of_In. vm_compute. tauto.
Defined.

(** ** A resolution that is not positive *)

Section bad_resolution.
Context {memory : Memory}.
Local Set Default Proof Using "Type".


End bad_resolution.

(** ** Discovery after a save *)

Lemma walkable_frame (f f' : gmap (list string) node) d rel :
  (∀ q : list string, (3 < length q)%nat → f' !! q = f !! q) →
  (3 ≤ length d)%nat → walkable f' d rel = walkable f d rel.
Proof.
  intros Hsame. revert d. induction rel as [|x rel IH]; intros d Hd; [done|].
  cbn [walkable]. rewrite IH by (rewrite length_app; simpl; lia).
  do 2 f_equal. unfold is_dir. destruct (d ++ [x]) eqn:Hdx; [done|].
  rewrite <- Hdx, Hsame; [done|]. rewrite length_app. simpl. lia.
Qed.

Lemma found_frame (f f' : gmap (list string) node) prefix d rel name s :
  (∀ q : list string, (3 < length q)%nat → f' !! q = f !! q) →
  (4 ≤ length d)%nat →
  found f' prefix d rel name s ↔ found f prefix d rel name s.
Proof.
  intros Hsame Hd. unfold found.
  rewrite (walkable_frame f f') by (done || lia).
  assert (Hdir : is_dir f' (d ++ rel) = is_dir f (d ++ rel)).
  { unfold is_dir. destruct (d ++ rel) eqn:Hdr; [done|].
    rewrite <- Hdr, Hsame; [done|]. rewrite length_app. lia. }
  rewrite Hdir, Hsame; [done|]. rewrite !length_app. simpl. lia.
Qed.

Section after_save.
Context {memory : Memory}.
Local Set Default Proof Using "Type".

(** X20: writing the genuine dataset does not change which forgeries are
    discovered afterwards: after a successful [batch_preprocess] to
    [PATH_TRAIN_GENUINE], [fetch_all_raw_forgeries] lists the same paths as
    before. *)
Theorem discovery_after_save (files_list : list string) (final_res : Z)
    (padding : bool) (w w1 : World) (before after : list string) :
  batch_preprocess files_list PATH_TRAIN_GENUINE final_res padding w = (Ok (), w1) →
  (fetch_all_raw_forgeries w).1 = Ok before →
  (fetch_all_raw_forgeries w1).1 = Ok after →
  ∀ s, s ∈ after ↔ s ∈ before.
Proof.
  intros Hrun. rewrite !fetch_all_raw_forgeries_unfold. intros [= <-] [= <-] s.
  pose proof (batch_preprocess_inv_frame _ _ _ _ _ _ Hrun) as Hframe.
  assert (Hsame : ∀ q : list string, (3 < length q)%nat → fs w1 !! q = fs w !! q).
  { intros q Hq. apply Hframe; intros ->; simpl in Hq; lia. }
  rewrite !list_elem_of_In, !fetch_all_raw_forgeries_elem.
  setoid_rewrite (found_frame (fs w) (fs w1)); (done || (simpl; lia)).
Qed.

End after_save.

(** * Concrete runs

    The statements above at concrete inputs, in a process that gets room
    for 2^24 elements at a time ([scarce]) or all it asks for ([plenty]). *)







Lemma batch_preprocess_fails_fast_witness :
  let files_list := ["a.png"] ++ "missing.png" :: ["scans/b.png"] in
  let run := batch_preprocess (memory:=scarce) files_list PATH_TRAIN_GENUINE 2 true disk in
  fs run.2 = fs disk
  ∧ fs run.2 !! path_of (npy_name PATH_TRAIN_GENUINE)
    = fs disk !! path_of (npy_name PATH_TRAIN_GENUINE)
  ∧ figures run.2 = figures disk
  ∧ run.1 = Raise FileNotFoundError
  ∧ stdout run.2
    = stdout disk ++ map (λ i, progress i (Z.of_nat (length files_list)))
                         (seq 0 (S (length ["a.png"]))).
Proof.
  apply (batch_preprocess_fails_fast (memory:=scarce) ["a.png"] "missing.png" ["scans/b.png"]
           PATH_TRAIN_GENUINE 2 true disk FileNotFoundError).
  - vm_compute. reflexivity.
  - vm_compute. reflexivity.
Defined.



Lemma preprocess_image_same_size_witness :
  ∃ t, threshold_of (Image_convert_L black_white) = Ok t
       ∧ (preprocess_image (memory:=scarce) black_white 2 true false empty_world).1
         = Ok (mkArray (2, 2)
                 (map (map (λ p, if to_L p <? t then 0%float else 1%float))
                      (rows black_white))).
Proof.
  apply (preprocess_image_same_size (memory:=scarce) black_white 2 true false empty_world);
    reflexivity.
Defined.




Lemma batch_preprocess_returns_witness :
  (∃ arrs,
     Forall2 (λ file arr, (load_and_process (memory:=scarce) file 2 true disk).1 = Ok arr)
             ["a.png"] arrs
     ∧ fs (batch_preprocess (memory:=scarce) ["a.png"] PATH_TRAIN_GENUINE 2 true disk).2
          !! path_of (npy_name PATH_TRAIN_GENUINE)
       = Some (NpyFile (mkArray (Z.of_nat (length ["a.png"]), 2 * 2)
                                (map flat arrs))))
  ∧ ∀ q, q ≠ path_of (npy_name PATH_TRAIN_GENUINE) →
         q ≠ ["data"] → q ≠ ["data"; "clean"] →
         fs (batch_preprocess (memory:=scarce) ["a.png"] PATH_TRAIN_GENUINE 2 true disk).2 !! q
         = fs disk !! q.
Proof.
  apply (batch_preprocess_returns (memory:=scarce) ["a.png"] PATH_TRAIN_GENUINE 2 true disk).
  vm_compute. reflexivity.
Defined.


Lemma discovery_after_save_witness :
  twice_listed ∈ raw_forgeries ↔ twice_listed ∈ raw_forgeries.
Proof.
  apply (discovery_after_save (memory:=scarce) raw_genuine 2 true raw_disk
           (batch_preprocess (memory:=scarce) raw_genuine PATH_TRAIN_GENUINE 2 true raw_disk).2
           raw_forgeries raw_forgeries).
  - vm_compute. reflexivity.
  - vm_compute. reflexivity.
  - vm_compute. reflexivity.
Defined.

